(** * Phase configuration provider (internal/build/phase_config_provider.go)

    A shallow embedding of the builder that assembles, for one lifecycle
    phase, the container and host configuration handed to the container
    runtime, together with the catalogue of configuration operations.

    Go's [*PhaseConfigProvider] is mutated in place by every operation; here
    an operation is a function from provider to provider and the builder
    threads the provider through the operation list.  Slices are lists (the
    nil slice is the empty list), [map[string]string] is a [gmap]. *)

From Stdlib Require Import Ascii String.
From stdpp Require Import base strings list gmap.

Set Implicit Arguments.

Local Open Scope string_scope.
Local Open Scope list_scope.

(** ** Docker API types (the fields this package reads or writes) *)

Module container.

(** [container.Isolation] is a string type; these are its named values,
    [IsolationEmpty] being the zero value. *)
Inductive Isolation : Type :=
| IsolationEmpty
| IsolationDefault
| IsolationProcess
| IsolationHyperV.

Record Config : Type := {
  Image : string;
  Env : list string;
  Cmd : list string;
  User : string;
  Labels : gmap string string
}.

(** [Isolation_] is the field [Isolation]. *)
Record HostConfig : Type := {
  Binds : list string;
  NetworkMode : string;
  Isolation_ : Isolation
}.

(** [new(container.Config)] and [new(container.HostConfig)]: every field
    at its zero value. *)
Definition newConfig : Config :=
  {| Image := ""; Env := []; Cmd := []; User := ""; Labels := ∅ |}.

Definition newHostConfig : HostConfig :=
  {| Binds := []; NetworkMode := ""; Isolation_ := IsolationEmpty |}.

End container.

Module types.

(** [types.ExecConfig]; the fields not listed stay at their zero value in
    this package. *)
Record ExecConfig : Type := {
  Cmd : list string;
  Detach : bool;
  AttachStdin : bool;
  User : string
}.

End types.

(** ** Constants *)

Definition linuxContainerAdmin : string := "root".
Definition windowsContainerAdmin : string := "NT AUTHORITY\SYSTEM".
Definition platformAPIEnvVar : string := "CNB_PLATFORM_API".

(** ** Logging sinks *)

Module logging.

Inductive Level : Type := DebugLevel | InfoLevel | WarnLevel | ErrorLevel.

(** An [io.Writer] as this package builds it: the writer of a logger at a
    level ([logging.GetWriterForLevel]) under a stack of prefix writers
    ([logging.NewPrefixWriter], which allocates a new writer around the
    one it is given). *)
Inductive Writer (Logger : Type) : Type :=
| GetWriterForLevel (logger : Logger) (level : Level)
| NewPrefixWriter (w : Writer Logger) (prefix : string).

(** The prefixes a write goes through, outermost first. *)
Fixpoint prefixes {Logger : Type} (w : Writer Logger) : list string :=
  match w with
  | GetWriterForLevel _ _ => []
  | NewPrefixWriter w' prefix => prefix :: prefixes w'
  end.

End logging.

(** ** Environment entries

    The runtime reads an entry of the env list as [KEY=VALUE], split at the
    first ['=']. *)

Fixpoint envKey (entry : string) : string :=
  match entry with
  | EmptyString => EmptyString
  | String c rest => if Ascii.eqb c "="%char then EmptyString else String c (envKey rest)
  end.

Fixpoint envValue (entry : string) : string :=
  match entry with
  | EmptyString => EmptyString
  | String c rest => if Ascii.eqb c "="%char then rest else envValue rest
  end.

Section Provider.

(** [logging.Logger] and [ContainerOperation] are declared elsewhere in
    the repository; the provider only stores and passes their values. *)
Variable Logger : Type.
Variable ContainerOperation : Type.

(** ** The execution context (the fields of [LifecycleExecution] read here) *)

(** [lifecycleExec.mountPaths]: the mount points already resolved for the
    target OS. *)
Record mountPaths : Type := {
  layersDir : string;
  appDir : string
}.

(** [lifecycleExec.opts]; [Builder] holds [opts.Builder.Name()]. *)
Record LifecycleOptions : Type := {
  Builder : string;
  HTTPProxy : string;
  HTTPSProxy : string;
  NoProxy : string
}.

(** [platformAPI] holds [lifecycleExec.platformAPI.String()];
    [lifecycleOS] is the field [os] and [mountPaths_] the field
    [mountPaths]. *)
Record LifecycleExecution : Type := {
  logger : Logger;
  platformAPI : string;
  layersVolume : string;
  appVolume : string;
  lifecycleOS : string;
  mountPaths_ : mountPaths;
  opts : LifecycleOptions
}.

(** ** The provider *)

Record PhaseConfigProvider : Type := {
  ctrConf : container.Config;
  ctrExecs : list types.ExecConfig;
  hostConf : container.HostConfig;
  name : string;
  os : string;
  containerOps : list ContainerOperation;
  infoWriter : logging.Writer Logger;
  errorWriter : logging.Writer Logger
}.

Definition PhaseConfigProviderOperation : Type :=
  PhaseConfigProvider -> PhaseConfigProvider.

(** *** Field assignments *)

Definition setImage (v : string) (c : container.Config) : container.Config :=
  {| container.Image := v; container.Env := container.Env c;
     container.Cmd := container.Cmd c; container.User := container.User c;
     container.Labels := container.Labels c |}.

Definition setEnv (v : list string) (c : container.Config) : container.Config :=
  {| container.Image := container.Image c; container.Env := v;
     container.Cmd := container.Cmd c; container.User := container.User c;
     container.Labels := container.Labels c |}.

Definition setCmd (v : list string) (c : container.Config) : container.Config :=
  {| container.Image := container.Image c; container.Env := container.Env c;
     container.Cmd := v; container.User := container.User c;
     container.Labels := container.Labels c |}.

Definition setUser (v : string) (c : container.Config) : container.Config :=
  {| container.Image := container.Image c; container.Env := container.Env c;
     container.Cmd := container.Cmd c; container.User := v;
     container.Labels := container.Labels c |}.

Definition setLabels (v : gmap string string) (c : container.Config) : container.Config :=
  {| container.Image := container.Image c; container.Env := container.Env c;
     container.Cmd := container.Cmd c; container.User := container.User c;
     container.Labels := v |}.

Definition setBinds (v : list string) (h : container.HostConfig) : container.HostConfig :=
  {| container.Binds := v; container.NetworkMode := container.NetworkMode h;
     container.Isolation_ := container.Isolation_ h |}.

Definition setNetworkMode (v : string) (h : container.HostConfig) : container.HostConfig :=
  {| container.Binds := container.Binds h; container.NetworkMode := v;
     container.Isolation_ := container.Isolation_ h |}.

Definition setIsolation (v : container.Isolation) (h : container.HostConfig) : container.HostConfig :=
  {| container.Binds := container.Binds h;
     container.NetworkMode := container.NetworkMode h;
     container.Isolation_ := v |}.

Definition updCtrConf (f : container.Config -> container.Config)
  (p : PhaseConfigProvider) : PhaseConfigProvider :=
  {| ctrConf := f (ctrConf p); ctrExecs := ctrExecs p; hostConf := hostConf p;
     name := name p; os := os p; containerOps := containerOps p;
     infoWriter := infoWriter p; errorWriter := errorWriter p |}.

Definition updHostConf (f : container.HostConfig -> container.HostConfig)
  (p : PhaseConfigProvider) : PhaseConfigProvider :=
  {| ctrConf := ctrConf p; ctrExecs := ctrExecs p; hostConf := f (hostConf p);
     name := name p; os := os p; containerOps := containerOps p;
     infoWriter := infoWriter p; errorWriter := errorWriter p |}.

Definition setCtrExecs (v : list types.ExecConfig)
  (p : PhaseConfigProvider) : PhaseConfigProvider :=
  {| ctrConf := ctrConf p; ctrExecs := v; hostConf := hostConf p;
     name := name p; os := os p; containerOps := containerOps p;
     infoWriter := infoWriter p; errorWriter := errorWriter p |}.

Definition setContainerOps (v : list ContainerOperation)
  (p : PhaseConfigProvider) : PhaseConfigProvider :=
  {| ctrConf := ctrConf p; ctrExecs := ctrExecs p; hostConf := hostConf p;
     name := name p; os := os p; containerOps := v;
     infoWriter := infoWriter p; errorWriter := errorWriter p |}.

Definition setInfoWriter (v : logging.Writer Logger)
  (p : PhaseConfigProvider) : PhaseConfigProvider :=
  {| ctrConf := ctrConf p; ctrExecs := ctrExecs p; hostConf := hostConf p;
     name := name p; os := os p; containerOps := containerOps p;
     infoWriter := v; errorWriter := errorWriter p |}.

Definition setErrorWriter (v : logging.Writer Logger)
  (p : PhaseConfigProvider) : PhaseConfigProvider :=
  {| ctrConf := ctrConf p; ctrExecs := ctrExecs p; hostConf := hostConf p;
     name := name p; os := os p; containerOps := containerOps p;
     infoWriter := infoWriter p; errorWriter := v |}.

(** Read accessors used in the statements. *)
Definition Cmd (p : PhaseConfigProvider) : list string := container.Cmd (ctrConf p).
Definition Env (p : PhaseConfigProvider) : list string := container.Env (ctrConf p).
Definition Image (p : PhaseConfigProvider) : string := container.Image (ctrConf p).
Definition User (p : PhaseConfigProvider) : string := container.User (ctrConf p).
Definition Binds (p : PhaseConfigProvider) : list string := container.Binds (hostConf p).

(** ** The operation catalogue *)

Definition NullOp : PhaseConfigProviderOperation :=
  fun provider => provider.

Definition WithArgs (args : list string) : PhaseConfigProviderOperation :=
  fun provider =>
    updCtrConf (setCmd (container.Cmd (ctrConf provider) ++ args)) provider.

(** Flags are always prepended. *)
Definition WithFlags (flags : list string) : PhaseConfigProviderOperation :=
  fun provider =>
    updCtrConf (setCmd (flags ++ container.Cmd (ctrConf provider))) provider.

Definition WithBinds (binds : list string) : PhaseConfigProviderOperation :=
  fun provider =>
    updHostConf (setBinds (container.Binds (hostConf provider) ++ binds)) provider.

Definition WithEnv (envs : list string) : PhaseConfigProviderOperation :=
  fun provider =>
    updCtrConf (setEnv (container.Env (ctrConf provider) ++ envs)) provider.

Definition WithImage (image : string) : PhaseConfigProviderOperation :=
  fun provider => updCtrConf (setImage image) provider.

Definition WithLogPrefix (prefix : string) : PhaseConfigProviderOperation :=
  fun provider =>
    if decide (prefix <> "") then
      let provider :=
        setInfoWriter (logging.NewPrefixWriter (infoWriter provider) prefix) provider in
      setErrorWriter (logging.NewPrefixWriter (errorWriter provider) prefix) provider
    else provider.

Definition appendEnv (entry : string) : PhaseConfigProviderOperation :=
  fun provider =>
    updCtrConf (setEnv (container.Env (ctrConf provider) ++ [entry])) provider.

Definition WithLifecycleProxy (lifecycleExec : LifecycleExecution)
  : PhaseConfigProviderOperation :=
  fun provider =>
    let provider :=
      if decide (HTTPProxy (opts lifecycleExec) <> "") then
        let provider := appendEnv ("HTTP_PROXY=" +:+ HTTPProxy (opts lifecycleExec)) provider in
        appendEnv ("http_proxy=" +:+ HTTPProxy (opts lifecycleExec)) provider
      else provider in
    let provider :=
      if decide (HTTPSProxy (opts lifecycleExec) <> "") then
        let provider := appendEnv ("HTTPS_PROXY=" +:+ HTTPSProxy (opts lifecycleExec)) provider in
        appendEnv ("https_proxy=" +:+ HTTPSProxy (opts lifecycleExec)) provider
      else provider in
    if decide (NoProxy (opts lifecycleExec) <> "") then
      let provider := appendEnv ("NO_PROXY=" +:+ NoProxy (opts lifecycleExec)) provider in
      appendEnv ("no_proxy=" +:+ NoProxy (opts lifecycleExec)) provider
    else provider.

Definition WithNetwork (networkMode : string) : PhaseConfigProviderOperation :=
  fun provider => updHostConf (setNetworkMode networkMode) provider.

Definition WithRegistryAccess (authConfig : string) : PhaseConfigProviderOperation :=
  fun provider => appendEnv ("CNB_REGISTRY_AUTH=" +:+ authConfig) provider.

Definition WithRoot : PhaseConfigProviderOperation :=
  fun provider =>
    if decide (os provider = "windows") then
      let provider := updCtrConf (setUser windowsContainerAdmin) provider in
      (* exec process as default user that can be impersonated by SYSTEM;
         the command prompts for input forever *)
      setCtrExecs
        [ {| types.Cmd := ["cmd.exe"; "/c"; "set /p wait="];
             types.Detach := true;
             types.AttachStdin := true;
             types.User := "" |} ]
        provider
    else updCtrConf (setUser linuxContainerAdmin) provider.

Definition WithDaemonAccess : PhaseConfigProviderOperation :=
  fun provider =>
    let provider := WithRoot provider in
    let bind := "/var/run/docker.sock:/var/run/docker.sock" in
    let bind :=
      if decide (os provider = "windows")
      then "\\.\pipe\docker_engine:\\.\pipe\docker_engine"
      else bind in
    updHostConf (setBinds (container.Binds (hostConf provider) ++ [bind])) provider.

Definition WithContainerOperations (operations : list ContainerOperation)
  : PhaseConfigProviderOperation :=
  fun provider => setContainerOps (containerOps provider ++ operations) provider.

(** ** The builder *)

(** The provider as first allocated (the struct literal, the image, the
    authorship label and the Windows isolation mode), before any
    operation runs. *)
Definition newProvider (name : string) (lifecycleExec : LifecycleExecution)
  : PhaseConfigProvider :=
  let provider :=
    {| ctrConf := container.newConfig;
       ctrExecs := [];
       hostConf := container.newHostConfig;
       name := name;
       os := lifecycleOS lifecycleExec;
       containerOps := [];
       infoWriter := logging.GetWriterForLevel (logger lifecycleExec) logging.InfoLevel;
       errorWriter := logging.GetWriterForLevel (logger lifecycleExec) logging.ErrorLevel |} in
  let provider := updCtrConf (setImage (Builder (opts lifecycleExec))) provider in
  let provider := updCtrConf (setLabels {[ "author" := "pack" ]}) provider in
  if decide (lifecycleOS lifecycleExec = "windows")
  then updHostConf (setIsolation container.IsolationProcess) provider
  else provider.

(** [for _, op := range ops { op(provider) }] *)
Definition applyOps (ops : list PhaseConfigProviderOperation)
  (provider : PhaseConfigProvider) : PhaseConfigProvider :=
  fold_left (fun provider op => op provider) ops provider.

Definition NewPhaseConfigProvider (name : string)
  (lifecycleExec : LifecycleExecution)
  (ops : list PhaseConfigProviderOperation) : PhaseConfigProvider :=
  let provider := newProvider name lifecycleExec in
  let ops :=
    ops ++
    [ WithEnv [platformAPIEnvVar +:+ "=" +:+ platformAPI lifecycleExec];
      WithLifecycleProxy lifecycleExec;
      WithBinds
        [ layersVolume lifecycleExec +:+ ":" +:+ layersDir (mountPaths_ lifecycleExec);
          appVolume lifecycleExec +:+ ":" +:+ appDir (mountPaths_ lifecycleExec) ] ] in
  let provider := applyOps ops provider in
  updCtrConf
    (setCmd (["/cnb/lifecycle/" +:+ name] ++ container.Cmd (ctrConf provider)))
    provider.

(** The debug record the builder writes to [lifecycleExec.logger] before
    it returns, one string per [Debug]/[Debugf] call.  [style.Symbol] and
    the [%s] rendering of the label map are the formatting helpers. *)
Variable Symbol : string -> string.
Variable fmtLabels : gmap string string -> string.

Definition join (elems : list string) (sep : string) : string :=
  String.concat sep elems.

Definition debugRecord (provider : PhaseConfigProvider) : list string :=
  [ "Running the " +:+ Symbol (name provider) +:+ " on OS "
      +:+ Symbol (os provider) +:+ " with:";
    "Container Settings:";
    "  Args: " +:+ Symbol (join (Cmd provider) " ");
    "  System Envs: " +:+ Symbol (join (Env provider) " ");
    "  Image: " +:+ Symbol (Image provider);
    "  User: " +:+ Symbol (User provider);
    "  Labels: " +:+ Symbol (fmtLabels (container.Labels (ctrConf provider)));
    "Host Settings:";
    "  Binds: " +:+ Symbol (join (Binds provider) " ");
    "  Network Mode: " +:+ Symbol (container.NetworkMode (hostConf provider)) ].

(** What one call of the builder writes to the logger at debug level. *)
Definition NewPhaseConfigProvider_debug (name : string)
  (lifecycleExec : LifecycleExecution)
  (ops : list PhaseConfigProviderOperation) : list string :=
  debugRecord (NewPhaseConfigProvider name lifecycleExec ops).

(** ** The catalogue as data

    The operations a caller can build with the exported constructors,
    and the closure each one stands for. *)
Inductive Operation : Type :=
| OpNullOp
| OpWithArgs (args : list string)
| OpWithFlags (flags : list string)
| OpWithBinds (binds : list string)
| OpWithDaemonAccess
| OpWithEnv (envs : list string)
| OpWithImage (image : string)
| OpWithLogPrefix (prefix : string)
| OpWithLifecycleProxy (lifecycleExec : LifecycleExecution)
| OpWithNetwork (networkMode : string)
| OpWithRegistryAccess (authConfig : string)
| OpWithRoot
| OpWithContainerOperations (operations : list ContainerOperation).

Definition run (o : Operation) : PhaseConfigProviderOperation :=
  match o with
  | OpNullOp => NullOp
  | OpWithArgs args => WithArgs args
  | OpWithFlags flags => WithFlags flags
  | OpWithBinds binds => WithBinds binds
  | OpWithDaemonAccess => WithDaemonAccess
  | OpWithEnv envs => WithEnv envs
  | OpWithImage image => WithImage image
  | OpWithLogPrefix prefix => WithLogPrefix prefix
  | OpWithLifecycleProxy lifecycleExec => WithLifecycleProxy lifecycleExec
  | OpWithNetwork networkMode => WithNetwork networkMode
  | OpWithRegistryAccess authConfig => WithRegistryAccess authConfig
  | OpWithRoot => WithRoot
  | OpWithContainerOperations operations => WithContainerOperations operations
  end.

(** ** Reference definitions used in the statements *)

(** What the builder appends after the caller's operations. *)
Definition platformEnv (lifecycleExec : LifecycleExecution) : string :=
  "CNB_PLATFORM_API=" +:+ platformAPI lifecycleExec.

Definition layersBind (lifecycleExec : LifecycleExecution) : string :=
  layersVolume lifecycleExec +:+ ":" +:+ layersDir (mountPaths_ lifecycleExec).

Definition appBind (lifecycleExec : LifecycleExecution) : string :=
  appVolume lifecycleExec +:+ ":" +:+ appDir (mountPaths_ lifecycleExec).

(** The two entries one proxy setting contributes: both spellings of the
    variable when the setting has a value, nothing otherwise. *)
Definition proxyPair (upper lower value : string) : list string :=
  if decide (value = "") then []
  else [upper +:+ "=" +:+ value; lower +:+ "=" +:+ value].

Definition proxyEnv (lifecycleExec : LifecycleExecution) : list string :=
  proxyPair "HTTP_PROXY" "http_proxy" (HTTPProxy (opts lifecycleExec))
  ++ proxyPair "HTTPS_PROXY" "https_proxy" (HTTPSProxy (opts lifecycleExec))
  ++ proxyPair "NO_PROXY" "no_proxy" (NoProxy (opts lifecycleExec)).

(** The image reference a list of catalogue operations leaves behind,
    starting from [image]: that of the last [WithImage]. *)
Definition lastImage (image : string) (ops : list Operation) : string :=
  fold_left
    (fun image o => match o with OpWithImage i => i | _ => image end)
    ops image.

Definition setsNonEmptyImage (o : Operation) : Prop :=
  match o with
  | OpWithImage image => image <> ""
  | _ => True
  end.

End Provider.

Arguments NullOp {Logger ContainerOperation}.
Arguments WithRoot {Logger ContainerOperation}.
Arguments WithDaemonAccess {Logger ContainerOperation}.
Arguments newProvider {Logger ContainerOperation}.
Arguments run {Logger ContainerOperation}.
Arguments setsNonEmptyImage {Logger ContainerOperation}.
Arguments OpNullOp {Logger ContainerOperation}.
Arguments OpWithArgs {Logger ContainerOperation}.
Arguments OpWithFlags {Logger ContainerOperation}.
Arguments OpWithBinds {Logger ContainerOperation}.
Arguments OpWithDaemonAccess {Logger ContainerOperation}.
Arguments OpWithEnv {Logger ContainerOperation}.
Arguments OpWithImage {Logger ContainerOperation}.
Arguments OpWithLogPrefix {Logger ContainerOperation}.
Arguments OpWithLifecycleProxy {Logger ContainerOperation}.
Arguments OpWithNetwork {Logger ContainerOperation}.
Arguments OpWithRegistryAccess {Logger ContainerOperation}.
Arguments OpWithRoot {Logger ContainerOperation}.
Arguments OpWithContainerOperations {Logger ContainerOperation}.

(** The command-vector tokens a list of catalogue operations contributes:
    arguments go to the back, flags to the front, in the order applied. *)
Definition opTokens {Logger ContainerOperation : Type}
  (ops : list (Operation Logger ContainerOperation)) (cmd : list string) : list string :=
  fold_left
    (fun cmd o =>
       match o with
       | OpWithArgs args => cmd ++ args
       | OpWithFlags flags => flags ++ cmd
       | _ => cmd
       end)
    ops cmd.

(** ** What a list of catalogue operations contributes, field by field *)

Section Summaries.

Context {Logger ContainerOperation : Type}.

(** The operations that elevate privileges. *)
Definition elevates (o : Operation Logger ContainerOperation) : bool :=
  match o with
  | OpWithRoot | OpWithDaemonAccess => true
  | _ => false
  end.

(** The administrative identity and the daemon address of a target OS. *)
Definition containerAdmin (os : string) : string :=
  if decide (os = "windows") then windowsContainerAdmin else linuxContainerAdmin.

Definition daemonBind (os : string) : string :=
  if decide (os = "windows")
  then "\\.\pipe\docker_engine:\\.\pipe\docker_engine"
  else "/var/run/docker.sock:/var/run/docker.sock".

(** The exec [WithRoot] registers on Windows. *)
Definition keepAliveExec : types.ExecConfig :=
  {| types.Cmd := ["cmd.exe"; "/c"; "set /p wait="];
     types.Detach := true;
     types.AttachStdin := true;
     types.User := "" |}.

Definition opFlags (o : Operation Logger ContainerOperation) : list string :=
  match o with OpWithFlags flags => flags | _ => [] end.

Definition opArgs (o : Operation Logger ContainerOperation) : list string :=
  match o with OpWithArgs args => args | _ => [] end.

Definition opBinds (os : string) (o : Operation Logger ContainerOperation) : list string :=
  match o with
  | OpWithBinds binds => binds
  | OpWithDaemonAccess => [daemonBind os]
  | _ => []
  end.

Definition opEnv (o : Operation Logger ContainerOperation) : list string :=
  match o with
  | OpWithEnv envs => envs
  | OpWithRegistryAccess authConfig => ["CNB_REGISTRY_AUTH=" +:+ authConfig]
  | OpWithLifecycleProxy lifecycleExec => proxyEnv lifecycleExec
  | _ => []
  end.

Definition opContainerOps (o : Operation Logger ContainerOperation)
  : list ContainerOperation :=
  match o with OpWithContainerOperations operations => operations | _ => [] end.

Definition opPrefixes (o : Operation Logger ContainerOperation) : list string :=
  match o with
  | OpWithLogPrefix prefix => if decide (prefix = "") then [] else [prefix]
  | _ => []
  end.

(** The operations that can put a CNB_REGISTRY_AUTH entry in the env. *)
Definition addsRegistryAuth (o : Operation Logger ContainerOperation) : Prop :=
  match o with
  | OpWithRegistryAccess _ => True
  | OpWithEnv envs => Exists (fun e => envKey e = "CNB_REGISTRY_AUTH") envs
  | _ => False
  end.

(** The network mode a list of operations leaves behind, starting from
    [mode]: that of the last [WithNetwork]. *)
Definition lastNetwork (mode : string) (ops : list (Operation Logger ContainerOperation))
  : string :=
  fold_left
    (fun mode o => match o with OpWithNetwork m => m | _ => mode end)
    ops mode.

(** A writer put under prefix writers, the head of the list outermost. *)
Definition wrapWriter (prefixes : list string) (w : logging.Writer Logger)
  : logging.Writer Logger :=
  fold_right (fun prefix w => logging.NewPrefixWriter w prefix) w prefixes.

End Summaries.

(** The value a consumer that lets the last entry win reads for [key]. *)
Definition lastValue (key : string) (env : list string) : option string :=
  fold_left
    (fun found entry => if decide (envKey entry = key) then Some (envValue entry) else found)
    env None.

(** * Package paths *)

(** ** The functions of Go's [strings] package the package calls

    Go strings are byte sequences, as [string] is here. *)

Module strings.

Definition HasPrefix (s prefix : string) : bool := String.prefix prefix s.

(** [s[n:]] for [n <= len(s)]. *)
Fixpoint from (n : nat) (s : string) : string :=
  match n, s with
  | S n', String _ rest => from n' rest
  | _, _ => s
  end.

Definition TrimPrefix (s prefix : string) : string :=
  if HasPrefix s prefix then from (String.length prefix) s else s.

(** [strings.Contains]. *)
Fixpoint Contains (s substr : string) : bool :=
  match s with
  | EmptyString => String.prefix substr s
  | String _ rest => String.prefix substr s || Contains rest substr
  end.

(** [strings.ReplaceAll] (and [strings.Replace] with [n = -1]) for a
    non-empty [old], as at every call site: the occurrences of [old] are
    replaced from left to right, the search resuming after each
    occurrence.  [skip] counts the bytes of an occurrence still to pass. *)
Fixpoint replaceFrom (old new : string) (skip : nat) (s : string) : string :=
  match s with
  | EmptyString => EmptyString
  | String c rest =>
      match skip with
      | S k => replaceFrom old new k rest
      | O =>
          if String.prefix old s
          then new +:+ replaceFrom old new (String.length old - 1) rest
          else String c (replaceFrom old new 0 rest)
      end
  end.

Definition ReplaceAll (s old new : string) : string := replaceFrom old new 0 s.




End strings.

Module paths.

(** [schemeRegexp] is [^.+://.*]: from the start of the text, one or more
    bytes other than newline, then [://]; what follows is free, since the
    pattern is not anchored at the end.  [afterFirst] scans for the [://]
    once the first byte has been passed. *)
Definition notNewline (c : ascii) : bool := negb (Ascii.eqb c "010"%char).

Fixpoint afterFirst (s : string) : bool :=
  match s with
  | EmptyString => false
  | String c rest => String.prefix "://" s || (notNewline c && afterFirst rest)
  end.

Definition IsURI (ref : string) : bool :=
  match ref with
  | EmptyString => false
  | String c rest => notNewline c && afterFirst rest
  end.

(** The reserved names and their replacements.  The source keeps them in a
    map and ranges over it; the order of that iteration is not fixed, so
    [FilterReservedNames] takes it as [order], any arrangement of this
    table. *)
Definition reservedNameConversions : list (string * string) :=
  [ ("aux", "a_u_x"); ("com", "c_o_m"); ("con", "c_o_n");
    ("lpt", "l_p_t"); ("nul", "n_u_l"); ("prn", "p_r_n") ].

Definition FilterReservedNames (order : list (string * string)) (p : string) : string :=
  fold_left (fun p kv => strings.ReplaceAll p (fst kv) (snd kv)) order p.



(** The slice [[2:]] panics when the string is shorter than two bytes:
    [None]. *)
Definition WindowsToSlash (p : string) : option string :=
  let replaced := strings.ReplaceAll p "\" "/" in
  if Nat.leb 2 (String.length replaced) then Some (strings.from 2 replaced) else None.

Definition WindowsPathSID (uid gid : Z) : string :=
  if (uid =? 0)%Z && (gid =? 0)%Z
  then "S-1-5-32-544"
  else "S-1-5-32-545".

(** *** Paths and file URIs

    [runtime.GOOS] and the functions of [path/filepath] and [net/url] that
    depend on the host or are not part of this repository are taken as
    given; a Go result [(value, err)] is a pair whose second component is
    [None] for a nil error. *)
Section FileURIs.

Variable GOOS : string.
Variable error : Type.
Variable IsAbs : string -> bool.
Variable Abs : string -> string * option error.
Variable PathUnescape : string -> string * option error.

(** [filepath.ToSlash] and [filepath.FromSlash]: the separator is a
    backslash on Windows and a slash elsewhere. *)
Definition ToSlash (path : string) : string :=
  if decide (GOOS = "windows") then strings.ReplaceAll path "\" "/" else path.

Definition FromSlash (path : string) : string :=
  if decide (GOOS = "windows") then strings.ReplaceAll path "/" "\" else path.

Definition FilePathToURI (p : string) : string * option error :=
  let '(p, err) := if negb (IsAbs p) then Abs p else (p, None) in
  match err with
  | Some e => ("", Some e)
  | None =>
      if decide (GOOS = "windows") then
        if strings.HasPrefix p "\\"
        then ("file://" +:+ ToSlash (strings.TrimPrefix p "\\"), None)
        else ("file:///" +:+ ToSlash p, None)
      else ("file://" +:+ p, None)
  end.

Definition URIToFilePath (uri : string) : string * option error :=
  let osPath := FromSlash (strings.TrimPrefix uri "file://") in
  let '(osPath, err) := PathUnescape osPath in
  match err with
  | Some _ => ("", None)
  | None =>
      if decide (GOOS = "windows") then
        if strings.HasPrefix osPath "\"
        then (strings.TrimPrefix osPath "\", None)
        else ("\\" +:+ osPath, None)
      else (osPath, None)
  end.

End FileURIs.

End paths.

(** ** Bytes of a string, for the statements about [paths] *)

(** The string with [f] applied to every byte. *)
Fixpoint mapBytes (f : ascii -> ascii) (s : string) : string :=
  match s with
  | EmptyString => EmptyString
  | String c rest => String (f c) (mapBytes f rest)
  end.

(** The string without its bytes equal to [c]. *)
Fixpoint withoutByte (c : ascii) (s : string) : string :=
  match s with
  | EmptyString => EmptyString
  | String d rest =>
      if Ascii.eqb d c then withoutByte c rest else String d (withoutByte c rest)
  end.

(** [c] occurs in [s]. *)
Fixpoint hasByte (c : ascii) (s : string) : bool :=
  match s with
  | EmptyString => false
  | String d rest => Ascii.eqb d c || hasByte c rest
  end.

(** ** Reserved names as byte triples

    Every reserved name is three bytes [abc] and its replacement is
    [a_b_c]; [underscored] is the path with an underscore put after the
    first and after the second byte of every occurrence of a name of
    [names], computed in one pass.  [prev] tells that a name starts at the
    byte before the string. *)

Definition name3 : Type := ascii * ascii * ascii.

Definition nameOf (t : name3) : string :=
  let '(a, b, c) := t in String a (String b (String c "")).

Definition conversionOf (t : name3) : string :=
  let '(a, b, c) := t in String a (String "_" (String b (String "_" (String c "")))).

Definition reservedNames : list name3 :=
  [ ("a", "u", "x"); ("c", "o", "m"); ("c", "o", "n");
    ("l", "p", "t"); ("n", "u", "l"); ("p", "r", "n") ]%char.

Definition startsAny (names : list name3) (s : string) : bool :=
  existsb (fun t => String.prefix (nameOf t) s) names.

Definition gap (b : bool) (s : string) : string :=
  if b then String "_" s else s.

Fixpoint underscored (names : list name3) (prev : bool) (s : string) : string :=
  match s with
  | EmptyString => EmptyString
  | String c rest =>
      String c (gap (startsAny names s || prev)
                  (underscored names (startsAny names s) rest))
  end.

(** [u] can start one byte into [t]. *)
Definition clashes (t u : name3) : bool :=
  let '(_, b, c) := t in
  let '(a', b', _) := u in
  Ascii.eqb b a' && Ascii.eqb c b'.

(** A name that cannot start at its own last byte and holds no
    underscore. *)
Definition wellFormed (t : name3) : bool :=
  let '(a, b, c) := t in
  negb (Ascii.eqb c a)
  && negb (Ascii.eqb a "_") && negb (Ascii.eqb b "_") && negb (Ascii.eqb c "_").

(** The table entry of a name. *)
Definition entryOf (t : name3) : string * string := (nameOf t, conversionOf t).

(** ** Sample hosts for the file URI functions

    Stand-ins for [filepath.IsAbs], [filepath.Abs] and [url.PathUnescape]
    on the sample paths: a Unix host and a Windows host whose working
    directory is fixed, and an unescaping that rejects every [%]. *)

Definition unixIsAbs (p : string) : bool := strings.HasPrefix p "/".

Definition unixAbs (p : string) : string * option unit := ("/work/" +:+ p, None).

Definition windowsIsAbs (p : string) : bool :=
  match p with
  | String _ (String ":" (String "\" _)) => true
  | _ => strings.HasPrefix p "\\"
  end.

Definition windowsAbs (p : string) : string * option unit := ("C:\work\" +:+ p, None).

Definition plainUnescape (s : string) : string * option unit :=
  if strings.Contains s "%" then ("", Some tt) else (s, None).

(** ** Sample execution contexts *)

Definition linuxExec : LifecycleExecution unit :=
  {| logger := tt;
     platformAPI := "0.3";
     layersVolume := "pack-layers-vol";
     appVolume := "pack-app-vol";
     lifecycleOS := "linux";
     mountPaths_ := {| layersDir := "/layers"; appDir := "/workspace" |};
     opts := {| Builder := "cnbs/sample-builder:bionic";
                HTTPProxy := ""; HTTPSProxy := ""; NoProxy := "" |} |}.

Definition windowsExec : LifecycleExecution unit :=
  {| logger := tt;
     platformAPI := "0.3";
     layersVolume := "pack-layers-vol";
     appVolume := "pack-app-vol";
     lifecycleOS := "windows";
     mountPaths_ := {| layersDir := "c:\layers"; appDir := "c:\workspace" |};
     opts := {| Builder := "cnbs/sample-builder:nanoserver";
                HTTPProxy := ""; HTTPSProxy := ""; NoProxy := "" |} |}.

Definition httpsProxyExec : LifecycleExecution unit :=
  {| logger := tt;
     platformAPI := "0.3";
     layersVolume := "pack-layers-vol";
     appVolume := "pack-app-vol";
     lifecycleOS := "linux";
     mountPaths_ := {| layersDir := "/layers"; appDir := "/workspace" |};
     opts := {| Builder := "cnbs/sample-builder:bionic";
                HTTPProxy := ""; HTTPSProxy := "https://proxy.local:3129";
                NoProxy := "" |} |}.

Definition linuxProvider : PhaseConfigProvider unit unit :=
  newProvider "export" linuxExec.

Definition windowsProvider : PhaseConfigProvider unit unit :=
  newProvider "export" windowsExec.

(** * Properties *)

Section Properties.

Context {Logger ContainerOperation : Type}.

Implicit Types (p : PhaseConfigProvider Logger ContainerOperation).
Implicit Types (le : LifecycleExecution Logger).
Implicit Types (ops : list (PhaseConfigProviderOperation Logger ContainerOperation)).
Implicit Types (cops : list (Operation Logger ContainerOperation)).
Implicit Types (nm : string).

(** ** Records are determined by their fields *)

Lemma appendEnv_twice (a b : string) p :
  appendEnv b (appendEnv a p)
  = updCtrConf (setEnv (Env p ++ [a; b])) p.
Proof.
  destruct p as [c ? ? ? ? ? ? ?]; destruct c.
  unfold appendEnv, updCtrConf, setEnv, Env; simpl.
  by rewrite <- app_assoc.
Qed.

Lemma appendEnv_nothing p : p = updCtrConf (setEnv (Env p ++ [])) p.
Proof.
  destruct p as [c ? ? ? ? ? ? ?]; destruct c.
  unfold updCtrConf, setEnv, Env; simpl. by rewrite app_nil_r.
Qed.

Lemma setEnv_setEnv_app (xs ys : list string) p :
  updCtrConf (setEnv (Env (updCtrConf (setEnv (Env p ++ xs)) p) ++ ys))
             (updCtrConf (setEnv (Env p ++ xs)) p)
  = updCtrConf (setEnv (Env p ++ xs ++ ys)) p.
Proof.
  destruct p as [c ? ? ? ? ? ? ?]; destruct c.
  unfold updCtrConf, setEnv, Env; simpl. by rewrite <- app_assoc.
Qed.

(** ** Proxy propagation in closed form *)

Lemma proxyStep (upper lower value : string) p :
  (if decide (value <> "")
   then appendEnv (lower +:+ "=" +:+ value) (appendEnv (upper +:+ "=" +:+ value) p)
   else p)
  = updCtrConf (setEnv (Env p ++ proxyPair upper lower value)) p.
Proof.
  unfold proxyPair.
  destruct (decide (value <> "")) as [Hne | He], (decide (value = "")) as [He' | Hne'];
    try contradiction.
  - apply appendEnv_twice.
  - apply appendEnv_nothing.
Qed.

Lemma WithLifecycleProxy_closed le p :
  WithLifecycleProxy le p = updCtrConf (setEnv (Env p ++ proxyEnv le)) p.
Proof.
  unfold WithLifecycleProxy, proxyEnv.
  pose proof (proxyStep "HTTP_PROXY" "http_proxy" (HTTPProxy (opts le))) as H1.
  pose proof (proxyStep "HTTPS_PROXY" "https_proxy" (HTTPSProxy (opts le))) as H2.
  pose proof (proxyStep "NO_PROXY" "no_proxy" (NoProxy (opts le))) as H3.
  simpl in H1, H2, H3. cbv zeta.
  rewrite H1, H2, H3.
  by rewrite !setEnv_setEnv_app.
Qed.

(** ** Applying operation lists *)

Lemma applyOps_app ops1 ops2 p :
  applyOps (ops1 ++ ops2) p = applyOps ops2 (applyOps ops1 p).
Proof. apply fold_left_app. Qed.

Lemma applyOps_cons (op : PhaseConfigProviderOperation Logger ContainerOperation) ops p :
  applyOps (op :: ops) p = applyOps ops (op p).
Proof. reflexivity. Qed.

(** The builder is: allocate, run the caller's operations, run the three
    mandatory ones, put the lifecycle binary in front of the command. *)
Lemma NewPhaseConfigProvider_unfold nm le ops :
  NewPhaseConfigProvider nm le ops
  = let caller := applyOps ops (newProvider nm le) in
    let provider :=
      WithBinds [layersBind le; appBind le]
        (WithLifecycleProxy le (WithEnv [platformEnv le] caller)) in
    updCtrConf (setCmd (("/cnb/lifecycle/" +:+ nm) :: Cmd provider)) provider.
Proof.
  unfold NewPhaseConfigProvider. cbv zeta. by rewrite applyOps_app.
Qed.

Ltac unfold_ops :=
  rewrite ?WithLifecycleProxy_closed;
  unfold NullOp, WithArgs, WithFlags, WithBinds, WithEnv, WithImage,
    WithLogPrefix, WithNetwork, WithRegistryAccess, WithDaemonAccess,
    WithRoot, WithContainerOperations, appendEnv;
  repeat case_decide; simpl.

(** ** What each catalogue operation leaves alone *)

Lemma run_os (o : Operation Logger ContainerOperation) p : os (run o p) = os p.
Proof. destruct o; simpl; unfold_ops; reflexivity. Qed.

Lemma run_Cmd (o : Operation Logger ContainerOperation) p :
  Cmd (run o p) = opTokens [o] (Cmd p).
Proof. destruct o; simpl; unfold_ops; reflexivity. Qed.

Lemma run_Image (o : Operation Logger ContainerOperation) p :
  Image (run o p) = lastImage (Image p) [o].
Proof. destruct o; simpl; unfold_ops; reflexivity. Qed.

Lemma run_ctrExecs (o : Operation Logger ContainerOperation) p :
  os p <> "windows" -> ctrExecs (run o p) = ctrExecs p.
Proof. intros Hos. destruct o; simpl; unfold_ops; try reflexivity; contradiction. Qed.

Lemma applyOps_os cops p : os (applyOps (map run cops) p) = os p.
Proof.
  revert p. induction cops as [| o cops IH]; intros p; [reflexivity |].
  rewrite map_cons, applyOps_cons, IH. apply run_os.
Qed.

Lemma applyOps_Cmd cops p :
  Cmd (applyOps (map run cops) p) = opTokens cops (Cmd p).
Proof.
  revert p. induction cops as [| o cops IH]; intros p; [reflexivity |].
  rewrite map_cons, applyOps_cons, IH, run_Cmd. reflexivity.
Qed.

Lemma applyOps_Image cops p :
  Image (applyOps (map run cops) p) = lastImage (Image p) cops.
Proof.
  revert p. induction cops as [| o cops IH]; intros p; [reflexivity |].
  rewrite map_cons, applyOps_cons, IH, run_Image. reflexivity.
Qed.

Lemma applyOps_ctrExecs cops p :
  os p <> "windows" -> ctrExecs (applyOps (map run cops) p) = ctrExecs p.
Proof.
  revert p. induction cops as [| o cops IH]; intros p Hos; [reflexivity |].
  rewrite map_cons, applyOps_cons, IH by (by rewrite run_os).
  by apply run_ctrExecs.
Qed.

Lemma lastImage_nonempty (image : string) cops :
  image <> "" -> Forall setsNonEmptyImage cops ->
  lastImage image cops <> "".
Proof.
  intros Himg Hall. revert image Himg.
  induction Hall as [| o cops Ho _ IH]; intros image Himg; [exact Himg |].
  simpl. apply IH. destruct o; simpl in *; assumption.
Qed.

(** ** The freshly allocated provider *)

Lemma newProvider_fields nm le :
  Cmd (@newProvider Logger ContainerOperation nm le) = []
  /\ Env (@newProvider Logger ContainerOperation nm le) = []
  /\ Binds (@newProvider Logger ContainerOperation nm le) = []
  /\ Image (@newProvider Logger ContainerOperation nm le) = Builder (opts le)
  /\ ctrExecs (@newProvider Logger ContainerOperation nm le) = []
  /\ os (@newProvider Logger ContainerOperation nm le) = lifecycleOS le.
Proof. unfold newProvider. case_decide; repeat split. Qed.

(** ** The builder's result, field by field *)

Lemma NewPhaseConfigProvider_Cmd nm le ops :
  Cmd (NewPhaseConfigProvider nm le ops)
  = ("/cnb/lifecycle/" +:+ nm) :: Cmd (applyOps ops (newProvider nm le)).
Proof.
  rewrite NewPhaseConfigProvider_unfold. cbv zeta.
  rewrite WithLifecycleProxy_closed. reflexivity.
Qed.

Lemma NewPhaseConfigProvider_Env nm le ops :
  Env (NewPhaseConfigProvider nm le ops)
  = Env (applyOps ops (newProvider nm le)) ++ platformEnv le :: proxyEnv le.
Proof.
  rewrite NewPhaseConfigProvider_unfold. cbv zeta.
  rewrite WithLifecycleProxy_closed.
  unfold WithBinds, WithEnv, Env. simpl. by rewrite <- app_assoc.
Qed.

Lemma NewPhaseConfigProvider_Binds nm le ops :
  Binds (NewPhaseConfigProvider nm le ops)
  = Binds (applyOps ops (newProvider nm le)) ++ [layersBind le; appBind le].
Proof.
  rewrite NewPhaseConfigProvider_unfold. cbv zeta.
  rewrite WithLifecycleProxy_closed. reflexivity.
Qed.

Lemma NewPhaseConfigProvider_Image nm le ops :
  Image (NewPhaseConfigProvider nm le ops)
  = Image (applyOps ops (newProvider nm le)).
Proof.
  rewrite NewPhaseConfigProvider_unfold. cbv zeta.
  rewrite WithLifecycleProxy_closed. reflexivity.
Qed.

Lemma NewPhaseConfigProvider_ctrExecs nm le ops :
  ctrExecs (NewPhaseConfigProvider nm le ops)
  = ctrExecs (applyOps ops (newProvider nm le)).
Proof.
  rewrite NewPhaseConfigProvider_unfold. cbv zeta.
  rewrite WithLifecycleProxy_closed. reflexivity.
Qed.

(** ** Keys and values of the proxy entries *)

Lemma proxyEnv_keys le (e : string) :
  e ∈ proxyEnv le ->
  envKey e ∈ ["HTTP_PROXY"; "http_proxy"; "HTTPS_PROXY"; "https_proxy";
              "NO_PROXY"; "no_proxy"].
Proof.
  unfold proxyEnv, proxyPair. intros He.
  repeat case_decide; set_unfold; intuition (subst; simpl; auto 10).
Qed.

Lemma proxyEnv_values le : Forall (fun e => envValue e <> "") (proxyEnv le).
Proof.
  unfold proxyEnv, proxyPair.
  repeat case_decide; repeat (apply Forall_app; split);
    repeat constructor; simpl; assumption.
Qed.

(** ** The builder *)

(** C1: whatever the phase name and the caller's operations, the builder
    runs the caller's operations first and the mandatory ones (platform
    API variable, proxy variables, layers and app binds) after them, so
    the final env list is the caller's followed by the platform entry and
    the proxy entries, the final bind list is the caller's followed by
    the two volume binds, and all of them are present in the result. *)
Theorem mandatory_operations_apply_last nm le ops :
  let caller := applyOps ops (newProvider nm le) in
  let final := NewPhaseConfigProvider nm le ops in
  final
  = updCtrConf (setCmd (("/cnb/lifecycle/" +:+ nm) :: Cmd caller))
      (applyOps
         [ WithEnv [platformEnv le]; WithLifecycleProxy le;
           WithBinds [layersBind le; appBind le] ]
         caller)
  /\ Env final = Env caller ++ platformEnv le :: proxyEnv le
  /\ Binds final = Binds caller ++ [layersBind le; appBind le]
  /\ platformEnv le ∈ Env final
  /\ proxyEnv le ⊆ Env final
  /\ layersBind le ∈ Binds final
  /\ appBind le ∈ Binds final.
Proof.
  intros caller final. subst final.
  split; [| rewrite NewPhaseConfigProvider_Env, NewPhaseConfigProvider_Binds;
            fold caller; repeat split].
  - rewrite NewPhaseConfigProvider_unfold. cbv zeta. fold caller.
    assert (HCmd : Cmd (WithBinds [layersBind le; appBind le]
                          (WithLifecycleProxy le (WithEnv [platformEnv le] caller)))
                   = Cmd caller)
      by (rewrite WithLifecycleProxy_closed; reflexivity).
    rewrite HCmd. reflexivity.
  - apply elem_of_app. right. apply elem_of_cons. by left.
  - intros e He. apply elem_of_app. right. apply elem_of_cons. by right.
  - apply elem_of_app. right. apply elem_of_cons. by left.
  - apply elem_of_app. right. apply elem_of_cons. right.
    apply elem_of_cons. by left.
Qed.

(** C2: for every phase name and every operation list the final command
    vector is non-empty, its element 0 is ["/cnb/lifecycle/" + name], and
    its tail is the command vector the operations built; for catalogue
    operations that tail is exactly the tokens of their [WithArgs] and
    [WithFlags]. *)
Theorem command_vector_head nm le ops cops :
  Cmd (NewPhaseConfigProvider nm le ops) <> []
  /\ Cmd (NewPhaseConfigProvider nm le ops) !! 0 = Some ("/cnb/lifecycle/" +:+ nm)
  /\ tail (Cmd (NewPhaseConfigProvider nm le ops))
     = Cmd (applyOps ops (newProvider nm le))
  /\ Cmd (NewPhaseConfigProvider nm le (map run cops))
     = ("/cnb/lifecycle/" +:+ nm) :: opTokens cops [].
Proof.
  rewrite !NewPhaseConfigProvider_Cmd. repeat split; [discriminate |].
  rewrite applyOps_Cmd.
  by destruct (newProvider_fields nm le) as (-> & _).
Qed.

(** C5: two [WithFlags] calls leave the second call's flags in front of
    the first's, in front of what was there; two [WithArgs] calls leave
    their arguments at the end in call order. *)
Theorem flags_prepend_args_append p (flags1 flags2 args1 args2 : list string) nm le :
  Cmd (WithFlags ["b"] (WithFlags ["a"] p)) = "b" :: "a" :: Cmd p
  /\ Cmd (WithArgs ["y"] (WithArgs ["x"] p)) = Cmd p ++ ["x"; "y"]
  /\ Cmd (WithFlags flags2 (WithFlags flags1 p)) = flags2 ++ flags1 ++ Cmd p
  /\ Cmd (WithArgs args2 (WithArgs args1 p)) = Cmd p ++ args1 ++ args2
  /\ Cmd (NewPhaseConfigProvider (ContainerOperation := ContainerOperation) nm le
            [WithFlags ["a"]; WithFlags ["b"]; WithArgs ["x"]; WithArgs ["y"]])
     = ["/cnb/lifecycle/" +:+ nm; "b"; "a"; "x"; "y"].
Proof.
  split; [reflexivity |].
  split; [unfold WithArgs, Cmd; simpl; by rewrite <- app_assoc |].
  split; [reflexivity |].
  split; [unfold WithArgs, Cmd; simpl; by rewrite <- app_assoc |].
  rewrite NewPhaseConfigProvider_Cmd.
  unfold newProvider. by case_decide.
Qed.

(** C6: [WithDaemonAccess] on a provider whose OS is "windows" appends the
    named-pipe bind and sets the user to NT AUTHORITY\SYSTEM; on any other
    OS it appends the docker-socket bind and sets the user to root. *)
Theorem WithDaemonAccess_by_os p :
  (os p = "windows" ->
     Binds (WithDaemonAccess p)
     = Binds p ++ ["\\.\pipe\docker_engine:\\.\pipe\docker_engine"]
     /\ User (WithDaemonAccess p) = "NT AUTHORITY\SYSTEM")
  /\ (os p <> "windows" ->
      Binds (WithDaemonAccess p)
      = Binds p ++ ["/var/run/docker.sock:/var/run/docker.sock"]
      /\ User (WithDaemonAccess p) = "root").
Proof.
  split; intros Hos; unfold WithDaemonAccess, WithRoot; cbv zeta;
    repeat case_decide; simpl in *; try contradiction; by split.
Qed.

(** C3 (as the code has it): for phase "detector" on a Linux target with
    the single caller operation [WithBinds "/tmp/cache:/cache"], the final
    bind list is the caller's bind followed by the layers and app binds
    (and nothing else, so no daemon socket), the command vector is
    ["/cnb/lifecycle/detector"], and the env list holds the platform API
    entry and no entry whose key is CNB_REGISTRY_AUTH. *)
Theorem detector_scenario le :
  lifecycleOS le = "linux" ->
  let final :=
    NewPhaseConfigProvider (ContainerOperation := ContainerOperation)
      "detector" le [WithBinds ["/tmp/cache:/cache"]] in
  Binds final = ["/tmp/cache:/cache"; layersBind le; appBind le]
  /\ Cmd final = ["/cnb/lifecycle/detector"]
  /\ ("CNB_PLATFORM_API=" +:+ platformAPI le) ∈ Env final
  /\ Forall (fun e => envKey e <> "CNB_REGISTRY_AUTH") (Env final).
Proof.
  intros Hos final. subst final.
  rewrite NewPhaseConfigProvider_Binds, NewPhaseConfigProvider_Cmd,
    NewPhaseConfigProvider_Env.
  assert (Hnew : Env (applyOps [WithBinds ["/tmp/cache:/cache"]]
                        (newProvider (ContainerOperation := ContainerOperation)
                           "detector" le)) = []
                 /\ Binds (applyOps [WithBinds ["/tmp/cache:/cache"]]
                             (newProvider (ContainerOperation := ContainerOperation)
                                "detector" le)) = ["/tmp/cache:/cache"]
                 /\ Cmd (applyOps [WithBinds ["/tmp/cache:/cache"]]
                           (newProvider (ContainerOperation := ContainerOperation)
                              "detector" le)) = []).
  { unfold newProvider. by case_decide. }
  destruct Hnew as (-> & -> & ->).
  split; [reflexivity |]. split; [reflexivity |].
  split; [apply elem_of_cons; by left |].
  simpl. constructor; [simpl; discriminate |].
  apply Forall_forall. intros e He Hk.
  apply proxyEnv_keys in He. rewrite Hk in He.
  repeat (apply elem_of_cons in He as [He | He]; [discriminate |]).
  by apply not_elem_of_nil in He.
Qed.

(** C4 (as the code has it): the final image reference is the one of the
    last [WithImage] among the caller's operations, or the builder's name
    when there is none; it is non-empty when the builder's name is and
    every [WithImage] was given a non-empty reference. *)
Theorem final_image nm le cops :
  Image (NewPhaseConfigProvider nm le (map run cops))
  = lastImage (Builder (opts le)) cops
  /\ (Builder (opts le) <> "" -> Forall setsNonEmptyImage cops ->
      Image (NewPhaseConfigProvider nm le (map run cops)) <> "").
Proof.
  assert (H : Image (NewPhaseConfigProvider nm le (map run cops))
              = lastImage (Builder (opts le)) cops).
  { rewrite NewPhaseConfigProvider_Image, applyOps_Image.
    by destruct (newProvider_fields nm le) as (_ & _ & _ & -> & _). }
  split; [exact H |].
  intros Hb Hall. rewrite H. by apply lastImage_nonempty.
Qed.

(** C7: [WithLifecycleProxy] appends, for each of the HTTP, HTTPS and
    no-proxy settings in turn, the upper-case and the lower-case entry
    carrying the value when the setting is non-empty and nothing when it is
    empty, and changes nothing else; no appended entry has an empty value;
    with only the HTTPS proxy set it appends exactly the two HTTPS
    entries. *)
Theorem WithLifecycleProxy_entries le p :
  let http := HTTPProxy (opts le) in
  let https := HTTPSProxy (opts le) in
  let no := NoProxy (opts le) in
  let added :=
    (if decide (http = "") then [] else ["HTTP_PROXY=" +:+ http; "http_proxy=" +:+ http])
    ++ (if decide (https = "") then [] else ["HTTPS_PROXY=" +:+ https; "https_proxy=" +:+ https])
    ++ (if decide (no = "") then [] else ["NO_PROXY=" +:+ no; "no_proxy=" +:+ no]) in
  WithLifecycleProxy le p = updCtrConf (setEnv (Env p ++ added)) p
  /\ Env (WithLifecycleProxy le p) = Env p ++ added
  /\ Forall (fun e => envValue e <> "") added
  /\ (http = "" -> https <> "" -> no = "" ->
      Env (WithLifecycleProxy le p)
      = Env p ++ ["HTTPS_PROXY=" +:+ https; "https_proxy=" +:+ https]
      /\ length (Env (WithLifecycleProxy le p)) = length (Env p) + 2).
Proof.
  intros http https no added.
  assert (Hadded : added = proxyEnv le) by reflexivity.
  assert (HEnv : Env (WithLifecycleProxy le p) = Env p ++ added)
    by (rewrite Hadded, WithLifecycleProxy_closed; reflexivity).
  split; [rewrite Hadded; apply WithLifecycleProxy_closed |].
  split; [exact HEnv |].
  split; [rewrite Hadded; apply proxyEnv_values |].
  intros Hh Hs Hn. rewrite HEnv. subst added.
  repeat case_decide; try contradiction.
  split; [reflexivity |]. rewrite length_app. reflexivity.
Qed.

(** ** Log prefixes *)

Lemma NewPrefixWriter_fresh (w : logging.Writer Logger) (prefix : string) :
  logging.NewPrefixWriter w prefix <> w.
Proof.
  intros H. apply (f_equal logging.prefixes) in H. simpl in H.
  apply (f_equal length) in H. simpl in H. lia.
Qed.

(** C8: [WithLogPrefix ""] changes nothing; for a non-empty prefix it
    replaces the info and the error sink by prefix writers around the
    previous sinks and changes nothing else, and applying it twice wraps
    both sinks twice, which is not what one application gives. *)
Theorem WithLogPrefix_wraps (prefix : string) p :
  WithLogPrefix "" p = p
  /\ (prefix <> "" ->
      WithLogPrefix prefix p
      = setErrorWriter (logging.NewPrefixWriter (errorWriter p) prefix)
          (setInfoWriter (logging.NewPrefixWriter (infoWriter p) prefix) p)
      /\ infoWriter (WithLogPrefix prefix p)
         = logging.NewPrefixWriter (infoWriter p) prefix
      /\ errorWriter (WithLogPrefix prefix p)
         = logging.NewPrefixWriter (errorWriter p) prefix
      /\ infoWriter (WithLogPrefix prefix (WithLogPrefix prefix p))
         = logging.NewPrefixWriter (logging.NewPrefixWriter (infoWriter p) prefix) prefix
      /\ errorWriter (WithLogPrefix prefix (WithLogPrefix prefix p))
         = logging.NewPrefixWriter (logging.NewPrefixWriter (errorWriter p) prefix) prefix
      /\ WithLogPrefix prefix (WithLogPrefix prefix p) <> WithLogPrefix prefix p).
Proof.
  split; [reflexivity |].
  intros Hne. unfold WithLogPrefix. rewrite !decide_True by assumption.
  cbv zeta. repeat split.
  intros H. apply (f_equal (fun q => infoWriter q)) in H. simpl in H.
  by apply NewPrefixWriter_fresh in H.
Qed.

(** ** Privilege elevation *)

(** C9: [WithRoot] on a provider whose OS is "windows" leaves exactly one
    auxiliary exec, which is detached, has stdin attached, an empty user,
    and runs [cmd.exe /c "set /p wait="]; when the target OS is not
    "windows" the auxiliary exec list of the built provider is empty for
    every list of catalogue operations (no catalogue operation changes
    the list on such a provider). *)
Theorem WithRoot_auxiliary_exec p nm le cops :
  (os p = "windows" ->
     exists e : types.ExecConfig,
       ctrExecs (WithRoot p) = [e]
       /\ types.Detach e = true
       /\ types.AttachStdin e = true
       /\ types.User e = ""
       /\ types.Cmd e = ["cmd.exe"; "/c"; "set /p wait="])
  /\ (os p <> "windows" ->
      ctrExecs (applyOps (map run cops) p) = ctrExecs p)
  /\ (lifecycleOS le <> "windows" ->
      ctrExecs (NewPhaseConfigProvider nm le (map run cops)) = []).
Proof.
  split; [| split].
  - intros Hos. unfold WithRoot. rewrite decide_True by assumption.
    eexists. repeat split.
  - apply applyOps_ctrExecs.
  - intros Hos. rewrite NewPhaseConfigProvider_ctrExecs.
    destruct (newProvider_fields nm le) as (_ & _ & _ & _ & Hex & Hos').
    rewrite applyOps_ctrExecs by (by rewrite Hos'). exact Hex.
Qed.

(** ** The null operation *)

(** C10: [NullOp] returns the provider it is given, every field as it
    was, so an operation list with a [NullOp] inserted anywhere builds
    the same provider as the list without it. *)
Theorem NullOp_identity p nm le ops1 ops2 :
  NullOp p = p
  /\ applyOps (ops1 ++ NullOp :: ops2) p = applyOps (ops1 ++ ops2) p
  /\ NewPhaseConfigProvider nm le (ops1 ++ NullOp :: ops2)
     = NewPhaseConfigProvider nm le (ops1 ++ ops2).
Proof.
  split; [reflexivity |].
  split; [by rewrite !applyOps_app |].
  unfold NewPhaseConfigProvider. cbv zeta.
  rewrite <- !app_assoc, !applyOps_app. reflexivity.
Qed.

End Properties.

(** * The statements at sample inputs *)

Lemma detector_scenario_witness :
  lifecycleOS linuxExec = "linux"
  /\ Binds (NewPhaseConfigProvider (ContainerOperation := unit)
              "detector" linuxExec [WithBinds ["/tmp/cache:/cache"]])
     = ["/tmp/cache:/cache"; "pack-layers-vol:/layers"; "pack-app-vol:/workspace"]
  /\ Cmd (NewPhaseConfigProvider (ContainerOperation := unit)
            "detector" linuxExec [WithBinds ["/tmp/cache:/cache"]])
     = ["/cnb/lifecycle/detector"].
Proof.
  split; [reflexivity |].
  destruct (detector_scenario (ContainerOperation := unit) linuxExec eq_refl)
    as (HBinds & HCmd & _).
  split; [exact HBinds | exact HCmd].
Defined.

(** With the caller's bind first, the bind list is not the one that lists
    the volume binds first. *)
Lemma detector_binds_volumes_first_counterexample :
  Binds (NewPhaseConfigProvider (ContainerOperation := unit)
           "detector" linuxExec [WithBinds ["/tmp/cache:/cache"]])
  <> [layersBind linuxExec; appBind linuxExec; "/tmp/cache:/cache"].
Proof. vm_compute. discriminate. Qed.

Lemma final_image_witness :
  Builder (opts linuxExec) <> ""
  /\ Forall setsNonEmptyImage
       [OpWithImage (Logger := unit) (ContainerOperation := unit) "cnbs/sample-stack-run:bionic"]
  /\ Image (NewPhaseConfigProvider "export" linuxExec
              (map run [OpWithImage (ContainerOperation := unit) "cnbs/sample-stack-run:bionic"]))
     <> "".
Proof.
  assert (Hb : Builder (opts linuxExec) <> "") by (simpl; discriminate).
  assert (Hall : Forall setsNonEmptyImage
                   [OpWithImage (Logger := unit) (ContainerOperation := unit)
                      "cnbs/sample-stack-run:bionic"])
    by (repeat constructor; simpl; discriminate).
  split; [exact Hb |]. split; [exact Hall |].
  exact (proj2 (final_image "export" linuxExec _) Hb Hall).
Defined.

(** A caller that sets the empty image reference gets it back. *)
Lemma empty_image_counterexample :
  ~ (Image (NewPhaseConfigProvider (ContainerOperation := unit)
              "detector" linuxExec [WithImage ""]) <> "").
Proof. intros H. apply H. reflexivity. Qed.

Lemma WithDaemonAccess_by_os_witness :
  (os windowsProvider = "windows"
   /\ Binds (WithDaemonAccess windowsProvider)
      = ["\\.\pipe\docker_engine:\\.\pipe\docker_engine"]
   /\ User (WithDaemonAccess windowsProvider) = "NT AUTHORITY\SYSTEM")
  /\ (os linuxProvider <> "windows"
      /\ Binds (WithDaemonAccess linuxProvider)
         = ["/var/run/docker.sock:/var/run/docker.sock"]
      /\ User (WithDaemonAccess linuxProvider) = "root").
Proof.
  split.
  - split; [reflexivity |].
    exact (proj1 (WithDaemonAccess_by_os windowsProvider) eq_refl).
  - assert (Hos : os linuxProvider <> "windows") by (simpl; discriminate).
    split; [exact Hos |].
    exact (proj2 (WithDaemonAccess_by_os linuxProvider) Hos).
Defined.

Lemma WithLifecycleProxy_entries_witness :
  HTTPProxy (opts httpsProxyExec) = ""
  /\ HTTPSProxy (opts httpsProxyExec) <> ""
  /\ NoProxy (opts httpsProxyExec) = ""
  /\ Env (WithLifecycleProxy httpsProxyExec linuxProvider)
     = ["HTTPS_PROXY=https://proxy.local:3129"; "https_proxy=https://proxy.local:3129"].
Proof.
  assert (Hs : HTTPSProxy (opts httpsProxyExec) <> "") by (simpl; discriminate).
  split; [reflexivity |]. split; [exact Hs |]. split; [reflexivity |].
  destruct (WithLifecycleProxy_entries httpsProxyExec linuxProvider)
    as (_ & _ & _ & Honly).
  exact (proj1 (Honly eq_refl Hs eq_refl)).
Defined.

Lemma WithLogPrefix_wraps_witness :
  "build" <> ""
  /\ infoWriter (WithLogPrefix "build" (WithLogPrefix "build" linuxProvider))
     = logging.NewPrefixWriter
         (logging.NewPrefixWriter (logging.GetWriterForLevel tt logging.InfoLevel) "build")
         "build"
  /\ WithLogPrefix "build" (WithLogPrefix "build" linuxProvider)
     <> WithLogPrefix "build" linuxProvider.
Proof.
  assert (Hne : "build" <> "") by discriminate.
  split; [exact Hne |].
  destruct (proj2 (WithLogPrefix_wraps "build" linuxProvider) Hne)
    as (_ & _ & _ & Hinfo & _ & Hnot).
  split; [exact Hinfo | exact Hnot].
Defined.

Lemma WithRoot_auxiliary_exec_witness :
  (os windowsProvider = "windows"
   /\ exists e : types.ExecConfig,
        ctrExecs (WithRoot windowsProvider) = [e]
        /\ types.Detach e = true
        /\ types.AttachStdin e = true
        /\ types.User e = ""
        /\ types.Cmd e = ["cmd.exe"; "/c"; "set /p wait="])
  /\ (lifecycleOS linuxExec <> "windows"
      /\ ctrExecs (NewPhaseConfigProvider "export" linuxExec
                     (map run [OpWithRoot (ContainerOperation := unit);
                               OpWithDaemonAccess; OpWithArgs ["-daemon"]]))
         = []).
Proof.
  split.
  - split; [reflexivity |].
    exact (proj1 (WithRoot_auxiliary_exec windowsProvider "export" windowsExec [])
             eq_refl).
  - assert (Hos : lifecycleOS linuxExec <> "windows") by (simpl; discriminate).
    split; [exact Hos |].
    exact (proj2 (proj2 (WithRoot_auxiliary_exec linuxProvider "export" linuxExec
                           [OpWithRoot; OpWithDaemonAccess; OpWithArgs ["-daemon"]]))
             Hos).
Defined.

(** The whole builder on a Windows target, with daemon and registry access. *)
Example exporter_on_windows :
  let final :=
    NewPhaseConfigProvider (ContainerOperation := unit) "exporter" windowsExec
      [ WithDaemonAccess; WithFlags ["-daemon"]; WithArgs ["img"];
        WithRegistryAccess "{}"; WithNetwork "host" ] in
  Cmd final = ["/cnb/lifecycle/exporter"; "-daemon"; "img"]
  /\ Env final = ["CNB_REGISTRY_AUTH={}"; "CNB_PLATFORM_API=0.3"]
  /\ Binds final = [ "\\.\pipe\docker_engine:\\.\pipe\docker_engine";
                     "pack-layers-vol:c:\layers"; "pack-app-vol:c:\workspace" ]
  /\ User final = "NT AUTHORITY\SYSTEM"
  /\ container.Isolation_ (hostConf final) = container.IsolationProcess
  /\ container.NetworkMode (hostConf final) = "host"
  /\ container.Labels (ctrConf final) !! "author" = Some "pack".
Proof. vm_compute. repeat split. Qed.

(** * The built provider in closed form *)

Section BuiltProvider.

Context {Logger ContainerOperation : Type}.

Implicit Types (p : PhaseConfigProvider Logger ContainerOperation).
Implicit Types (le : LifecycleExecution Logger).
Implicit Types (ops : list (PhaseConfigProviderOperation Logger ContainerOperation)).
Implicit Types (o : Operation Logger ContainerOperation).
Implicit Types (cops : list (Operation Logger ContainerOperation)).
Implicit Types (nm : string).

Ltac unfold_catalogue :=
  rewrite ?WithLifecycleProxy_closed;
  unfold NullOp, WithArgs, WithFlags, WithBinds, WithEnv, WithImage,
    WithLogPrefix, WithNetwork, WithRegistryAccess, WithDaemonAccess,
    WithRoot, WithContainerOperations, appendEnv,
    containerAdmin, daemonBind, opPrefixes;
  repeat case_decide; simpl.

(** A field that every operation updates as a function of the target OS,
    the field and the operation is, after a list of operations, the fold
    of that function. *)
Lemma applyOps_field {A : Type}
  (get : PhaseConfigProvider Logger ContainerOperation -> A)
  (step : string -> A -> Operation Logger ContainerOperation -> A) :
  (forall o p, get (run o p) = step (os p) (get p) o) ->
  forall cops p,
    get (applyOps (map run cops) p) = fold_left (step (os p)) cops (get p).
Proof.
  intros Hstep cops. induction cops as [| o cops IH]; intros p; [reflexivity |].
  rewrite map_cons, applyOps_cons, IH, run_os, Hstep. reflexivity.
Qed.

Lemma fold_left_app_flat_map {A B : Type} (f : B -> list A) (l : list B) (acc : list A) :
  fold_left (fun acc b => acc ++ f b) l acc = acc ++ flat_map f l.
Proof.
  revert acc. induction l as [| b l IH]; intros acc; simpl.
  - by rewrite app_nil_r.
  - by rewrite IH, <- app_assoc.
Qed.

Lemma run_Env o p : Env (run o p) = Env p ++ opEnv o.
Proof.
  destruct o; simpl; unfold_catalogue; unfold Env; simpl;
    rewrite ?app_nil_r; reflexivity.
Qed.

Lemma run_Binds o p : Binds (run o p) = Binds p ++ opBinds (os p) o.
Proof.
  destruct o; simpl; unfold_catalogue; unfold Binds; simpl;
    rewrite ?app_nil_r; try reflexivity; contradiction.
Qed.

Lemma run_containerOps o p :
  containerOps (run o p) = containerOps p ++ opContainerOps o.
Proof.
  destruct o; simpl; unfold_catalogue; rewrite ?app_nil_r; reflexivity.
Qed.

Lemma run_User o p :
  User (run o p) = if elevates o then containerAdmin (os p) else User p.
Proof. destruct o; simpl; unfold_catalogue; try reflexivity; contradiction. Qed.

Lemma run_NetworkMode o p :
  container.NetworkMode (hostConf (run o p))
  = lastNetwork (container.NetworkMode (hostConf p)) [o].
Proof. destruct o; simpl; unfold_catalogue; reflexivity. Qed.

Lemma run_static o p :
  name (run o p) = name p
  /\ container.Labels (ctrConf (run o p)) = container.Labels (ctrConf p)
  /\ container.Isolation_ (hostConf (run o p)) = container.Isolation_ (hostConf p).
Proof. destruct o; simpl; unfold_catalogue; repeat split. Qed.

Lemma run_ctrExecs_windows o p :
  os p = "windows" ->
  ctrExecs (run o p) = if elevates o then [keepAliveExec] else ctrExecs p.
Proof.
  intros Hos. destruct o; simpl; unfold_catalogue; try reflexivity; contradiction.
Qed.

Lemma run_writers o p :
  infoWriter (run o p) = wrapWriter (opPrefixes o) (infoWriter p)
  /\ errorWriter (run o p) = wrapWriter (opPrefixes o) (errorWriter p).
Proof.
  destruct o; simpl; unfold_catalogue; try (split; reflexivity); contradiction.
Qed.

(** ** What the mandatory operations and the finalization leave alone *)

(** X1: for every caller operation list, the builder's own steps after the
    caller's operations change only the env list, the bind list and the
    command vector: every other field of the result is as the caller's
    operations left it. *)
Theorem builder_touches_only_env_binds_cmd nm le ops :
  let caller := applyOps ops (newProvider nm le) in
  let final := NewPhaseConfigProvider nm le ops in
  Image final = Image caller
  /\ User final = User caller
  /\ container.Labels (ctrConf final) = container.Labels (ctrConf caller)
  /\ container.NetworkMode (hostConf final) = container.NetworkMode (hostConf caller)
  /\ container.Isolation_ (hostConf final) = container.Isolation_ (hostConf caller)
  /\ ctrExecs final = ctrExecs caller
  /\ containerOps final = containerOps caller
  /\ name final = name caller
  /\ os final = os caller
  /\ infoWriter final = infoWriter caller
  /\ errorWriter final = errorWriter caller.
Proof.
  intros caller final. subst final.
  rewrite NewPhaseConfigProvider_unfold. cbv zeta. fold caller.
  rewrite WithLifecycleProxy_closed. repeat split.
Qed.

(** ** Fields of the built provider for catalogue operations *)

Lemma newProvider_more nm le :
  User (@newProvider Logger ContainerOperation nm le) = ""
  /\ name (@newProvider Logger ContainerOperation nm le) = nm
  /\ containerOps (@newProvider Logger ContainerOperation nm le) = []
  /\ container.NetworkMode (hostConf (@newProvider Logger ContainerOperation nm le)) = ""
  /\ container.Labels (ctrConf (@newProvider Logger ContainerOperation nm le))
     = {[ "author" := "pack" ]}
  /\ container.Isolation_ (hostConf (@newProvider Logger ContainerOperation nm le))
     = (if decide (lifecycleOS le = "windows")
        then container.IsolationProcess else container.IsolationEmpty)
  /\ infoWriter (@newProvider Logger ContainerOperation nm le)
     = logging.GetWriterForLevel (logger le) logging.InfoLevel
  /\ errorWriter (@newProvider Logger ContainerOperation nm le)
     = logging.GetWriterForLevel (logger le) logging.ErrorLevel.
Proof. unfold newProvider. case_decide; repeat split. Qed.

Lemma applyOps_static cops p :
  name (applyOps (map run cops) p) = name p
  /\ container.Labels (ctrConf (applyOps (map run cops) p)) = container.Labels (ctrConf p)
  /\ container.Isolation_ (hostConf (applyOps (map run cops) p))
     = container.Isolation_ (hostConf p).
Proof.
  revert p. induction cops as [| o cops IH]; intros p; [repeat split |].
  rewrite map_cons, applyOps_cons.
  destruct (IH (run o p)) as (-> & -> & ->). apply run_static.
Qed.

(** X2: whatever catalogue operations the caller lists, the built provider
    carries the phase name and target OS it was created with, exactly the
    label author=pack, and process isolation exactly when the target OS is
    "windows": no catalogue operation can change any of these. *)
Theorem built_identity_labels_isolation nm le cops :
  let final := NewPhaseConfigProvider nm le (map run cops) in
  name final = nm
  /\ os final = lifecycleOS le
  /\ container.Labels (ctrConf final) = {[ "author" := "pack" ]}
  /\ container.Isolation_ (hostConf final)
     = (if decide (lifecycleOS le = "windows")
        then container.IsolationProcess else container.IsolationEmpty).
Proof.
  intros final. subst final.
  rewrite NewPhaseConfigProvider_unfold. cbv zeta.
  rewrite WithLifecycleProxy_closed. simpl.
  destruct (applyOps_static cops (newProvider nm le)) as (-> & -> & ->).
  rewrite applyOps_os.
  destruct (newProvider_more nm le) as (_ & -> & _ & _ & -> & -> & _).
  destruct (newProvider_fields (ContainerOperation := ContainerOperation) nm le) as (_ & _ & _ & _ & _ & ->).
  repeat split.
Qed.

(** X3: the command vector of the built provider is the lifecycle binary, then
    the flags of the [WithFlags] operations taken from the last one to the
    first, then the arguments of the [WithArgs] operations in call order;
    where a [WithFlags] stands relative to a [WithArgs] does not matter. *)
Theorem built_command_vector nm le cops :
  Cmd (NewPhaseConfigProvider nm le (map run cops))
  = ("/cnb/lifecycle/" +:+ nm)
      :: flat_map opFlags (rev cops) ++ flat_map opArgs cops.
Proof.
  rewrite NewPhaseConfigProvider_Cmd, applyOps_Cmd.
  destruct (newProvider_fields (ContainerOperation := ContainerOperation) nm le) as (-> & _). f_equal.
  assert (H : forall cmd, opTokens cops cmd
                = flat_map opFlags (rev cops) ++ cmd ++ flat_map opArgs cops).
  { induction cops as [| o cops' IH]; intros cmd.
    - simpl. by rewrite app_nil_r.
    - change (opTokens (o :: cops') cmd) with (opTokens cops' (opTokens [o] cmd)).
      rewrite IH. simpl rev. rewrite flat_map_app. simpl flat_map.
      rewrite app_nil_r, <- !app_assoc.
      destruct o; simpl; rewrite ?app_nil_r, <- ?app_assoc; reflexivity. }
  rewrite H. reflexivity.
Qed.

(** X4: the env list of the built provider is what the operations contributed,
    in call order ([WithEnv] entries, one CNB_REGISTRY_AUTH entry per
    [WithRegistryAccess], the proxy entries of a [WithLifecycleProxy]),
    followed by the platform API entry and the builder's proxy entries;
    the bind list is the binds of the [WithBinds] operations and one daemon
    bind per [WithDaemonAccess], in call order, followed by the layers and
    app binds.  Nothing is deduplicated. *)
Theorem built_env_and_binds nm le cops :
  Env (NewPhaseConfigProvider nm le (map run cops))
  = flat_map opEnv cops ++ platformEnv le :: proxyEnv le
  /\ Binds (NewPhaseConfigProvider nm le (map run cops))
     = flat_map (opBinds (lifecycleOS le)) cops ++ [layersBind le; appBind le].
Proof.
  rewrite NewPhaseConfigProvider_Env, NewPhaseConfigProvider_Binds.
  rewrite (applyOps_field (fun p => Env p) (fun _ env o => env ++ opEnv o))
    by (intros; apply run_Env).
  rewrite (applyOps_field (fun p => Binds p) (fun os binds o => binds ++ opBinds os o))
    by (intros; apply run_Binds).
  rewrite !fold_left_app_flat_map.
  destruct (newProvider_fields (ContainerOperation := ContainerOperation) nm le) as (_ & -> & -> & _ & _ & ->).
  split; reflexivity.
Qed.

(** X5: the deferred container operations of the built provider are those of
    the [WithContainerOperations] operations, concatenated in call order. *)
Theorem built_container_operations nm le cops :
  containerOps (NewPhaseConfigProvider nm le (map run cops))
  = flat_map opContainerOps cops.
Proof.
  rewrite NewPhaseConfigProvider_unfold. cbv zeta.
  rewrite WithLifecycleProxy_closed. simpl.
  rewrite (applyOps_field (fun p => containerOps p)
             (fun _ acc o => acc ++ opContainerOps o))
    by (intros; apply run_containerOps).
  rewrite fold_left_app_flat_map.
  by destruct (newProvider_more nm le) as (_ & _ & -> & _).
Qed.

(** X6: the network mode of the built provider is the one given to the last
    [WithNetwork] in the list, and the empty string when there is none. *)
Theorem built_network_mode nm le cops :
  container.NetworkMode (hostConf (NewPhaseConfigProvider nm le (map run cops)))
  = lastNetwork "" cops
  /\ (forall cops' mode,
        lastNetwork "" (cops ++ OpWithNetwork mode :: cops')
        = lastNetwork mode cops').
Proof.
  split.
  - rewrite NewPhaseConfigProvider_unfold. cbv zeta.
    rewrite WithLifecycleProxy_closed. simpl.
    rewrite (applyOps_field (fun p => container.NetworkMode (hostConf p))
               (fun _ mode o => lastNetwork mode [o]))
      by (intros; apply run_NetworkMode).
    by destruct (newProvider_more nm le) as (_ & _ & _ & -> & _).
  - intros cops' mode. unfold lastNetwork. by rewrite fold_left_app.
Qed.

Lemma builder_frame nm le ops :
  User (NewPhaseConfigProvider nm le ops) = User (applyOps ops (newProvider nm le))
  /\ ctrExecs (NewPhaseConfigProvider nm le ops)
     = ctrExecs (applyOps ops (newProvider nm le)).
Proof.
  rewrite NewPhaseConfigProvider_unfold. cbv zeta.
  rewrite WithLifecycleProxy_closed. split; reflexivity.
Qed.

(** ** Privileges *)

Lemma fold_left_elevation {A : Type} (admin : A) cops (acc : A) :
  fold_left (fun acc o => if elevates o then admin else acc) cops acc
  = if existsb elevates cops then admin else acc.
Proof.
  revert acc. induction cops as [| o cops IH]; intros acc; [reflexivity |].
  simpl. rewrite IH. destruct (elevates o); simpl; [| reflexivity].
  by destruct (existsb elevates cops).
Qed.

(** X7: the built container runs as the target OS's administrator (root, or
    NT AUTHORITY\SYSTEM on Windows) exactly when the list holds a
    [WithRoot] or a [WithDaemonAccess]; otherwise the user stays empty.
    On Windows the same condition decides whether the keep-alive exec is
    registered, and it is registered once however many operations
    elevate; on any other OS no exec is registered. *)
Theorem built_privileges nm le cops :
  let final := NewPhaseConfigProvider nm le (map run cops) in
  User final
  = (if existsb elevates cops then containerAdmin (lifecycleOS le) else "")
  /\ ctrExecs final
     = (if decide (lifecycleOS le = "windows")
        then if existsb elevates cops then [keepAliveExec] else []
        else []).
Proof.
  intros final. subst final.
  destruct (builder_frame nm le (map run cops)) as (HUser & HExecs).
  rewrite HUser, HExecs. clear HUser HExecs.
  destruct (newProvider_fields (ContainerOperation := ContainerOperation) nm le)
    as (_ & _ & _ & _ & Hex & Hos).
  split.
  - rewrite (applyOps_field (fun p => User p)
               (fun os user o => if elevates o then containerAdmin os else user))
      by (intros; apply run_User).
    rewrite fold_left_elevation, Hos.
    by destruct (newProvider_more nm le) as (-> & _).
  - case_decide as Hwin.
    + assert (H : forall cops p, os p = "windows" ->
                  ctrExecs (applyOps (map run cops) p)
                  = if existsb elevates cops then [keepAliveExec] else ctrExecs p).
      { clear. intros cops. induction cops as [| o cops IH]; intros p Hp; [reflexivity |].
        rewrite map_cons, applyOps_cons, IH by (by rewrite run_os).
        rewrite run_ctrExecs_windows by assumption. simpl.
        destruct (elevates o); simpl; [| reflexivity].
        by destruct (existsb elevates cops). }
      rewrite H by (by rewrite Hos). by rewrite Hex.
    + rewrite applyOps_ctrExecs by (by rewrite Hos). exact Hex.
Qed.

(** ** Output sinks *)

Lemma wrapWriter_app (l1 l2 : list string) (w : logging.Writer Logger) :
  wrapWriter (l1 ++ l2) w = wrapWriter l1 (wrapWriter l2 w).
Proof. unfold wrapWriter. apply fold_right_app. Qed.

Lemma opPrefixes_rev o : rev (opPrefixes o) = opPrefixes o.
Proof. destruct o; simpl; try reflexivity. by case_decide. Qed.

Lemma fold_left_wrapWriter cops (w : logging.Writer Logger) :
  fold_left (fun w o => wrapWriter (opPrefixes o) w) cops w
  = wrapWriter (rev (flat_map opPrefixes cops)) w.
Proof.
  revert w. induction cops as [| o cops IH]; intros w; [reflexivity |].
  simpl. rewrite IH, rev_app_distr, wrapWriter_app, opPrefixes_rev. reflexivity.
Qed.

(** X8: the info sink of the built provider is the logger's info-level writer
    under one prefix writer per [WithLogPrefix] with a non-empty prefix,
    the last applied outermost; the error sink is the error-level writer
    under the same prefixes.  Empty prefixes leave no trace. *)
Theorem built_sinks nm le cops :
  let final := NewPhaseConfigProvider nm le (map run cops) in
  let prefixes := rev (flat_map opPrefixes cops) in
  infoWriter final
  = wrapWriter prefixes (logging.GetWriterForLevel (logger le) logging.InfoLevel)
  /\ errorWriter final
     = wrapWriter prefixes (logging.GetWriterForLevel (logger le) logging.ErrorLevel)
  /\ logging.prefixes (infoWriter final) = prefixes
  /\ logging.prefixes (errorWriter final) = prefixes
  /\ Forall (fun prefix => prefix <> "") prefixes.
Proof.
  intros final prefixes. subst final.
  assert (Hinfo : infoWriter (NewPhaseConfigProvider nm le (map run cops))
                  = wrapWriter prefixes
                      (logging.GetWriterForLevel (logger le) logging.InfoLevel)).
  { rewrite NewPhaseConfigProvider_unfold. cbv zeta.
    rewrite WithLifecycleProxy_closed. simpl.
    rewrite (applyOps_field (fun p => infoWriter p)
               (fun _ w o => wrapWriter (opPrefixes o) w))
      by (intros; apply run_writers).
    rewrite fold_left_wrapWriter.
    by destruct (newProvider_more nm le) as (_ & _ & _ & _ & _ & _ & -> & _). }
  assert (Herr : errorWriter (NewPhaseConfigProvider nm le (map run cops))
                 = wrapWriter prefixes
                     (logging.GetWriterForLevel (logger le) logging.ErrorLevel)).
  { rewrite NewPhaseConfigProvider_unfold. cbv zeta.
    rewrite WithLifecycleProxy_closed. simpl.
    rewrite (applyOps_field (fun p => errorWriter p)
               (fun _ w o => wrapWriter (opPrefixes o) w))
      by (intros; apply run_writers).
    rewrite fold_left_wrapWriter.
    by destruct (newProvider_more nm le) as (_ & _ & _ & _ & _ & _ & _ & ->). }
  assert (Hpre : forall (l : list string) (lg : Logger) lvl,
             logging.prefixes (wrapWriter l (logging.GetWriterForLevel lg lvl)) = l).
  { intros l lg lvl. induction l as [| x l IH]; [reflexivity |].
    simpl. by rewrite IH. }
  rewrite Hinfo, Herr, !Hpre. repeat split.
  subst prefixes. apply Forall_rev, Forall_flat_map, Forall_forall.
  intros o _. destruct o; simpl; try constructor.
  case_decide; repeat constructor. assumption.
Qed.

(** ** Reading the env list *)

Lemma lastValue_app (key : string) (env1 env2 : list string) :
  lastValue key (env1 ++ env2)
  = match lastValue key env2 with
    | Some v => Some v
    | None => lastValue key env1
    end.
Proof.
  unfold lastValue. rewrite fold_left_app.
  generalize (fold_left
                (fun found entry =>
                   if decide (envKey entry = key) then Some (envValue entry) else found)
                env1 None).
  induction env2 as [| e env2 IH] using rev_ind; intros found.
  - reflexivity.
  - rewrite !fold_left_app. simpl. case_decide; [reflexivity | apply IH].
Qed.

Lemma lastValue_other_keys (key : string) (env : list string) :
  Forall (fun e => envKey e <> key) env -> lastValue key env = None.
Proof.
  unfold lastValue. generalize (@None string).
  induction 1 as [| e env He _ IH]; [reflexivity |].
  simpl. rewrite decide_False by assumption. apply IH.
Qed.

Lemma proxyEnv_other_key le (key : string) :
  key ∉ ["HTTP_PROXY"; "http_proxy"; "HTTPS_PROXY"; "https_proxy"; "NO_PROXY"; "no_proxy"] ->
  Forall (fun e => envKey e <> key) (proxyEnv le).
Proof.
  intros Hkey. apply Forall_forall. intros e He Hk.
  apply proxyEnv_keys in He. rewrite Hk in He. contradiction.
Qed.

(** X9: whatever the caller's operations put in the env list, a consumer that
    lets the last entry for a key win reads the builder's platform API
    version under CNB_PLATFORM_API: the builder's entry comes after every
    caller entry and no proxy entry has that key. *)
Theorem platform_api_last_wins nm le ops :
  lastValue "CNB_PLATFORM_API" (Env (NewPhaseConfigProvider nm le ops))
  = Some (platformAPI le).
Proof.
  rewrite NewPhaseConfigProvider_Env.
  change (platformEnv le :: proxyEnv le) with ([platformEnv le] ++ proxyEnv le).
  rewrite !lastValue_app.
  rewrite (lastValue_other_keys (key := "CNB_PLATFORM_API") (env := proxyEnv le)).
  - reflexivity.
  - apply proxyEnv_other_key. intros H.
    repeat (apply elem_of_cons in H as [H | H]; [discriminate |]).
    by apply not_elem_of_nil in H.
Qed.

(** X10: [WithRegistryAccess] appends exactly one entry; its key is
    CNB_REGISTRY_AUTH and its value is the payload as given, whatever
    characters it holds, and it is what a last-wins consumer reads
    afterwards. *)
Theorem WithRegistryAccess_entry (authConfig : string) p :
  exists entry : string,
    Env (WithRegistryAccess authConfig p) = Env p ++ [entry]
    /\ envKey entry = "CNB_REGISTRY_AUTH"
    /\ envValue entry = authConfig
    /\ lastValue "CNB_REGISTRY_AUTH" (Env (WithRegistryAccess authConfig p))
       = Some authConfig.
Proof.
  exists ("CNB_REGISTRY_AUTH=" +:+ authConfig).
  assert (H : Env (WithRegistryAccess authConfig p)
              = Env p ++ ["CNB_REGISTRY_AUTH=" +:+ authConfig]) by reflexivity.
  rewrite H, lastValue_app. repeat split.
Qed.

(** X11: the env list of the built provider holds an entry with key
    CNB_REGISTRY_AUTH exactly when the caller listed a
    [WithRegistryAccess] or a [WithEnv] with such an entry: neither the
    builder nor any other operation adds one. *)
Theorem registry_auth_only_on_request nm le cops :
  Exists (fun e => envKey e = "CNB_REGISTRY_AUTH")
    (Env (NewPhaseConfigProvider nm le (map run cops)))
  <-> Exists addsRegistryAuth cops.
Proof.
  rewrite NewPhaseConfigProvider_Env.
  rewrite (applyOps_field (fun p => Env p) (fun _ env o => env ++ opEnv o))
    by (intros; apply run_Env).
  rewrite fold_left_app_flat_map.
  destruct (newProvider_fields (ContainerOperation := ContainerOperation) nm le)
    as (_ & -> & _).
  assert (Hproxy : forall le',
             ~ Exists (fun e => envKey e = "CNB_REGISTRY_AUTH") (proxyEnv le')).
  { intros le' Hex. apply Exists_exists in Hex as (e & He & Hk).
    apply proxyEnv_keys in He. rewrite Hk in He.
    repeat (apply elem_of_cons in He as [He | He]; [discriminate |]).
    by apply not_elem_of_nil in He. }
  simpl app. rewrite Exists_app, Exists_cons, Exists_flat_map.
  split.
  - intros [Hex | [Hplat | Hex]].
    + apply Exists_exists in Hex as (o & Ho & Hex). apply Exists_exists.
      exists o. split; [exact Ho |].
      destruct o; simpl in *; try (by apply Exists_nil in Hex); try exact I.
      * exact Hex.
      * by apply Hproxy in Hex.
    + simpl in Hplat. discriminate.
    + by apply Hproxy in Hex.
  - intros Hex. left. apply Exists_exists in Hex as (o & Ho & Hadds).
    apply Exists_exists. exists o. split; [exact Ho |].
    destruct o; simpl in *; try contradiction.
    + exact Hadds.
    + constructor. reflexivity.
Qed.

(** ** How operations compose *)

Lemma provider_eq p q :
  ctrConf p = ctrConf q -> ctrExecs p = ctrExecs q -> hostConf p = hostConf q ->
  name p = name q -> os p = os q -> containerOps p = containerOps q ->
  infoWriter p = infoWriter q -> errorWriter p = errorWriter q -> p = q.
Proof. destruct p, q; simpl; intros; subst; reflexivity. Qed.

Lemma config_eq (c d : container.Config) :
  container.Image c = container.Image d -> container.Env c = container.Env d ->
  container.Cmd c = container.Cmd d -> container.User c = container.User d ->
  container.Labels c = container.Labels d -> c = d.
Proof. destruct c, d; simpl; intros; subst; reflexivity. Qed.

Lemma hostConfig_eq (c d : container.HostConfig) :
  container.Binds c = container.Binds d ->
  container.NetworkMode c = container.NetworkMode d ->
  container.Isolation_ c = container.Isolation_ d -> c = d.
Proof. destruct c, d; simpl; intros; subst; reflexivity. Qed.

Ltac provider_ext :=
  apply provider_eq; simpl; try reflexivity;
  try (apply config_eq; simpl; try reflexivity);
  try (apply hostConfig_eq; simpl; try reflexivity).

(** X12: two appending operations of the same kind in a row are one operation
    with the concatenated list ([WithFlags] with the later flags first),
    and each of them is the identity on the empty list. *)
Theorem appending_operations_fuse p (xs ys : list string)
  (cs ds : list ContainerOperation) :
  WithArgs ys (WithArgs xs p) = WithArgs (xs ++ ys) p
  /\ WithFlags ys (WithFlags xs p) = WithFlags (ys ++ xs) p
  /\ WithBinds ys (WithBinds xs p) = WithBinds (xs ++ ys) p
  /\ WithEnv ys (WithEnv xs p) = WithEnv (xs ++ ys) p
  /\ WithContainerOperations ds (WithContainerOperations cs p)
     = WithContainerOperations (cs ++ ds) p
  /\ WithArgs [] p = p /\ WithFlags [] p = p /\ WithBinds [] p = p
  /\ WithEnv [] p = p /\ WithContainerOperations [] p = p.
Proof.
  repeat split;
    unfold WithArgs, WithFlags, WithBinds, WithEnv, WithContainerOperations;
    provider_ext; rewrite ?app_nil_r, <- ?app_assoc; reflexivity.
Qed.

(** X13: flags and arguments do not interfere: a [WithFlags] and a [WithArgs]
    give the same provider in either order. *)
Theorem flags_and_args_commute p (flags args : list string) :
  WithFlags flags (WithArgs args p) = WithArgs args (WithFlags flags p).
Proof.
  unfold WithArgs, WithFlags. provider_ext. by rewrite app_assoc.
Qed.

(** X14: the overwriting operations keep only the last value: a second
    [WithImage] or [WithNetwork] replaces the first, and [WithRoot] twice is
    [WithRoot] once. *)
Theorem overwriting_operations_last_wins p (image1 image2 mode1 mode2 : string) :
  WithImage image2 (WithImage image1 p) = WithImage image2 p
  /\ WithNetwork mode2 (WithNetwork mode1 p) = WithNetwork mode2 p
  /\ WithRoot (WithRoot p) = WithRoot p.
Proof.
  repeat split; unfold WithImage, WithNetwork, WithRoot; try reflexivity.
  repeat case_decide; simpl in *; try contradiction; reflexivity.
Qed.

(** X15: [WithDaemonAccess] is [WithRoot] followed by a [WithBinds] of the
    target OS's daemon address, and, unlike [WithRoot], it is not
    idempotent: applied twice it leaves the daemon bind twice. *)
Theorem WithDaemonAccess_decomposes p :
  WithDaemonAccess p = WithBinds [daemonBind (os p)] (WithRoot p)
  /\ Binds (WithDaemonAccess (WithDaemonAccess p))
     = Binds p ++ [daemonBind (os p); daemonBind (os p)]
  /\ WithDaemonAccess (WithDaemonAccess p) <> WithDaemonAccess p.
Proof.
  assert (H1 : forall q : PhaseConfigProvider Logger ContainerOperation,
             WithDaemonAccess q = WithBinds [daemonBind (os q)] (WithRoot q)).
  { intros q. unfold WithDaemonAccess, WithBinds, WithRoot, daemonBind. cbv zeta.
    repeat case_decide; simpl in *; try contradiction; reflexivity. }
  assert (H2 : forall q : PhaseConfigProvider Logger ContainerOperation,
             Binds (WithDaemonAccess q) = Binds q ++ [daemonBind (os q)]
             /\ os (WithDaemonAccess q) = os q).
  { intros q. rewrite H1. unfold WithBinds, WithRoot.
    case_decide; split; reflexivity. }
  split; [apply H1 |].
  assert (H3 : Binds (WithDaemonAccess (WithDaemonAccess p))
               = Binds p ++ [daemonBind (os p); daemonBind (os p)]).
  { destruct (H2 (WithDaemonAccess p)) as (-> & _).
    destruct (H2 p) as (-> & ->). by rewrite <- app_assoc. }
  split; [exact H3 |].
  intros Heq. apply (f_equal (fun q => length (Binds q))) in Heq.
  rewrite H3 in Heq. destruct (H2 p) as (Hb & _). rewrite Hb in Heq.
  rewrite !length_app in Heq. simpl in Heq. lia.
Qed.

End BuiltProvider.

(** * Package paths: properties *)

Section GoStrings.

Lemma prefix_nil (s : string) : String.prefix "" s = true.
Proof. by destruct s. Qed.

Lemma prefix_app (a post : string) : String.prefix a (a +:+ post) = true.
Proof.
  induction a as [| c a IH]; simpl; [apply prefix_nil |].
  destruct (ascii_dec c c); [exact IH | contradiction].
Qed.

Lemma prefix_app_both (a b s : string) :
  String.prefix (a +:+ b) (a +:+ s) = String.prefix b s.
Proof.
  induction a as [| c a IH]; simpl; [reflexivity |].
  destruct (ascii_dec c c); [exact IH | contradiction].
Qed.

Lemma prefix_split (a s : string) :
  String.prefix a s = true -> exists post, s = a +:+ post.
Proof.
  revert s. induction a as [| c a IH]; intros s H; [by exists s |].
  destruct s as [| d s]; [discriminate |]. simpl in H.
  destruct (ascii_dec c d) as [-> |]; [| discriminate].
  destruct (IH s H) as [post ->]. by exists post.
Qed.


Lemma from_app (a post : string) : strings.from (String.length a) (a +:+ post) = post.
Proof. induction a as [| c a IH]; simpl; [by destruct post | exact IH]. Qed.

Lemma TrimPrefix_app (a post : string) : strings.TrimPrefix (a +:+ post) a = post.
Proof. unfold strings.TrimPrefix, strings.HasPrefix. by rewrite prefix_app, from_app. Qed.

Lemma hasByte_app (c : ascii) (a b : string) :
  hasByte c (a +:+ b) = hasByte c a || hasByte c b.
Proof.
  induction a as [| d a IH]; simpl; [reflexivity |].
  by rewrite IH, orb_assoc.
Qed.

Lemma withoutByte_app (c : ascii) (a b : string) :
  withoutByte c (a +:+ b) = withoutByte c a +:+ withoutByte c b.
Proof.
  induction a as [| d a IH]; simpl; [reflexivity |].
  rewrite IH. by destruct (Ascii.eqb d c).
Qed.

Lemma length_mapBytes (f : ascii -> ascii) (s : string) :
  String.length (mapBytes f s) = String.length s.
Proof. induction s as [| c s IH]; simpl; congruence. Qed.

(** *** Replacing one byte by one byte *)

Lemma ReplaceAll_byte (a b : ascii) (s : string) :
  strings.ReplaceAll s (String a "") (String b "")
  = mapBytes (fun c => if Ascii.eqb c a then b else c) s.
Proof.
  unfold strings.ReplaceAll. induction s as [| c s IH]; [reflexivity |].
  simpl. destruct (ascii_dec a c) as [-> | Hne].
  - rewrite prefix_nil, Ascii.eqb_refl. simpl. by rewrite IH.
  - rewrite IH. destruct (Ascii.eqb_spec c a); [congruence | reflexivity].
Qed.

(** *** Replacing where nothing occurs *)

Lemma ReplaceAll_absent (s old new : string) :
  strings.Contains s old = false -> strings.ReplaceAll s old new = s.
Proof.
  unfold strings.ReplaceAll. induction s as [| c s IH]; intros H; [reflexivity |].
  cbn [strings.Contains] in H. apply orb_false_iff in H as [Hp Hc].
  cbn [strings.replaceFrom]. rewrite Hp, IH by assumption. reflexivity.
Qed.

(** *** Replacing by the same bytes with some [c] added *)

Lemma replaceFrom_withoutByte (c : ascii) (old new : string) :
  old <> "" -> withoutByte c new = withoutByte c old ->
  forall (s : string) (skip : nat),
    skip <= String.length s ->
    withoutByte c (strings.replaceFrom old new skip s)
    = withoutByte c (strings.from skip s).
Proof.
  intros Hold Hnew. induction s as [| d s IH]; intros skip Hskip.
  - by destruct skip.
  - destruct skip as [| k].
    + cbn [strings.replaceFrom strings.from].
      destruct (String.prefix old (String d s)) eqn:Hp.
      * apply prefix_split in Hp as [post Hpost].
        destruct old as [| a old']; [contradiction |].
        simpl in Hpost. injection Hpost as -> ->.
        replace (String.length (String a old') - 1) with (String.length old')
          by (simpl; lia).
        rewrite withoutByte_app, IH.
        -- rewrite from_app, Hnew.
           change (String a (old' +:+ post)) with (String a old' +:+ post).
           by rewrite withoutByte_app.
        -- clear. induction old' as [| x old' IH]; simpl; lia.
      * simpl. rewrite (IH 0) by lia.
        assert (Hfrom : strings.from 0 s = s) by (by destruct s).
        rewrite Hfrom. reflexivity.
    + cbn [strings.replaceFrom strings.from]. apply IH. simpl in Hskip. lia.
Qed.

Lemma ReplaceAll_withoutByte (c : ascii) (s old new : string) :
  old <> "" -> withoutByte c new = withoutByte c old ->
  withoutByte c (strings.ReplaceAll s old new) = withoutByte c s.
Proof.
  intros Hold Hnew. unfold strings.ReplaceAll.
  rewrite (@replaceFrom_withoutByte c old new Hold Hnew s 0) by lia.
  by destruct s.
Qed.

(** *** Splitting at one byte and joining again *)










End GoStrings.

Section PathsProperties.

(** ** IsURI *)



(** ** Windows paths *)


Lemma from_mapBytes (f : ascii -> ascii) (n : nat) (s : string) :
  strings.from n (mapBytes f s) = mapBytes f (strings.from n s).
Proof.
  revert s. induction n as [| n IH]; intros s; [by destruct s |].
  destruct s as [| c s]; [reflexivity | apply IH].
Qed.

Lemma length_from (n : nat) (s : string) :
  String.length (strings.from n s) = String.length s - n.
Proof.
  revert s. induction n as [| n IH]; intros s; [destruct s; simpl; lia |].
  destruct s as [| c s]; [reflexivity | apply IH].
Qed.

Lemma hasByte_mapBytes_replaced (a b : ascii) (s : string) :
  a <> b -> hasByte a (mapBytes (fun c => if Ascii.eqb c a then b else c) s) = false.
Proof.
  intros Hab. induction s as [| c s IH]; [reflexivity |].
  simpl. rewrite IH, orb_false_r.
  destruct (Ascii.eqb_spec c a); apply Ascii.eqb_neq; congruence.
Qed.

(** X18: [WindowsToSlash] panics exactly on the strings shorter than two bytes;
    on any other it returns the string without its first two bytes, every
    backslash turned into a slash, so the result holds no backslash and is
    two bytes shorter.  The two bytes dropped are not looked at. *)
Theorem WindowsToSlash_spec (p : string) :
  (String.length p < 2 -> paths.WindowsToSlash p = None)
  /\ (2 <= String.length p ->
      paths.WindowsToSlash p
      = Some (mapBytes (fun c => if Ascii.eqb c "\" then "/"%char else c)
                (strings.from 2 p)))
  /\ (forall r, paths.WindowsToSlash p = Some r ->
        hasByte "\" r = false /\ String.length r = String.length p - 2).
Proof.
  unfold paths.WindowsToSlash. cbv zeta.
  rewrite ReplaceAll_byte, length_mapBytes, from_mapBytes.
  split; [| split].
  - intros Hlt. apply Nat.leb_gt in Hlt. by rewrite Hlt.
  - intros Hge. apply Nat.leb_le in Hge. by rewrite Hge.
  - intros r Hr. destruct (Nat.leb 2 (String.length p)); [| discriminate].
    injection Hr as <-. split.
    + by apply hasByte_mapBytes_replaced.
    + rewrite length_mapBytes. exact (length_from 2 p).
Qed.

(** ** Reserved names *)

(** X19: in whatever order the table of reserved names is walked,
    [FilterReservedNames] only inserts underscores: without its
    underscores the result is the path without its underscores.  A path in
    which none of the six names occurs comes back unchanged. *)
Theorem FilterReservedNames_inserts_underscores
  (order : list (string * string)) (p : string) :
  order ≡ₚ paths.reservedNameConversions ->
  withoutByte "_" (paths.FilterReservedNames order p) = withoutByte "_" p
  /\ (Forall (fun kv => strings.Contains p (fst kv) = false)
        paths.reservedNameConversions ->
      paths.FilterReservedNames order p = p).
Proof.
  intros Hperm. symmetry in Hperm. split.
  - assert (Htable : Forall (fun kv : string * string =>
                               fst kv <> ""
                               /\ withoutByte "_" (snd kv) = withoutByte "_" (fst kv))
                       order).
    { eapply Permutation_Forall; [exact Hperm |].
      repeat constructor; discriminate. }
    clear Hperm. unfold paths.FilterReservedNames. revert p.
    induction Htable as [| kv order [Hk Hv] _ IH]; intros p; [reflexivity |].
    simpl. rewrite IH. by apply ReplaceAll_withoutByte.
  - intros Habsent.
    assert (Horder : Forall (fun kv => strings.Contains p (fst kv) = false) order)
      by (eapply Permutation_Forall; eassumption).
    clear Hperm Habsent. unfold paths.FilterReservedNames.
    induction Horder as [| kv order Hk _ IH]; [reflexivity |].
    simpl. by rewrite ReplaceAll_absent.
Qed.

End PathsProperties.

(** ** Paths and file URIs *)

Section FileURIProperties.

Variable GOOS : string.
Variable error : Type.
Variable IsAbs : string -> bool.
Variable Abs : string -> string * option error.
Variable PathUnescape : string -> string * option error.

Lemma IsURI_file (rest : string) : paths.IsURI ("file://" +:+ rest) = true.
Proof. by destruct rest. Qed.

Lemma slashes_there_and_back (s : string) :
  hasByte "/" s = false ->
  mapBytes (fun c => if Ascii.eqb c "/" then "\"%char else c)
    (mapBytes (fun c => if Ascii.eqb c "\" then "/"%char else c) s)
  = s.
Proof.
  induction s as [| c s IH]; intros H; [reflexivity |].
  simpl in H. apply orb_false_iff in H as [Hc Hs].
  simpl. rewrite (IH Hs). f_equal.
  destruct (Ascii.eqb_spec c "\") as [-> |]; [reflexivity |].
  by rewrite Hc.
Qed.

(** X20: [FilePathToURI] fails only on a path that is not absolute, with the
    error of [filepath.Abs] and the empty string; whenever it succeeds,
    on any OS, its result starts with [file://] and is accepted by
    [IsURI]. *)
Theorem FilePathToURI_result (p : string) :
  match paths.FilePathToURI GOOS IsAbs Abs p with
  | (uri, None) =>
      paths.IsURI uri = true /\ strings.HasPrefix uri "file://" = true
  | (uri, Some e) =>
      uri = "" /\ IsAbs p = false /\ snd (Abs p) = Some e
  end.
Proof.
  unfold paths.FilePathToURI.
  destruct (IsAbs p) eqn:Habs; simpl.
  - case_decide; [destruct (strings.HasPrefix p "\\") |];
      (split; [first [apply IsURI_file | apply (IsURI_file ("/" +:+ _))]
              | first [apply prefix_app | reflexivity]]).
  - destruct (Abs p) as [p' [e |]]; [by repeat split |].
    case_decide; [destruct (strings.HasPrefix p' "\\") |];
      (split; [first [apply IsURI_file | apply (IsURI_file ("/" +:+ _))]
              | first [apply prefix_app | reflexivity]]).
Qed.

(** X21: [URIToFilePath] never returns an error: when the path cannot be
    unescaped it returns the empty path, still with a nil error. *)
Theorem URIToFilePath_never_fails (uri : string) :
  snd (paths.URIToFilePath GOOS PathUnescape uri) = None
  /\ match snd (PathUnescape
                 (paths.FromSlash GOOS (strings.TrimPrefix uri "file://"))) with
     | Some _ => paths.URIToFilePath GOOS PathUnescape uri = ("", None)
     | None => True
     end.
Proof.
  unfold paths.URIToFilePath. cbv zeta.
  destruct (PathUnescape (paths.FromSlash GOOS (strings.TrimPrefix uri "file://")))
    as [osPath [e |]]; simpl; [by split |].
  split; [| exact I].
  case_decide; [destruct (strings.HasPrefix osPath "\") |]; reflexivity.
Qed.

(** X22: [URIToFilePath] undoes [FilePathToURI] on an absolute path whose bytes
    unescaping leaves alone; on Windows the path must also hold no forward
    slash and not start with three backslashes. *)
Theorem URIToFilePath_FilePathToURI (p : string) :
  IsAbs p = true ->
  (GOOS = "windows" ->
   hasByte "/" p = false /\ strings.HasPrefix p "\\\" = false) ->
  let uri := fst (paths.FilePathToURI GOOS IsAbs Abs p) in
  let osPath := paths.FromSlash GOOS (strings.TrimPrefix uri "file://") in
  PathUnescape osPath = (osPath, None) ->
  paths.URIToFilePath GOOS PathUnescape uri = (p, None).
Proof.
  intros Habs Hwin uri osPath. subst osPath uri.
  unfold paths.FilePathToURI, paths.URIToFilePath, paths.FromSlash, paths.ToSlash.
  rewrite Habs. simpl negb. cbv iota beta zeta.
  destruct (decide (GOOS = "windows")) as [HG | HG].
  - destruct (Hwin HG) as [Hslash Hthree]. clear Hwin.
    destruct (strings.HasPrefix p "\\") eqn:Hunc.
    + apply prefix_split in Hunc as [q ->].
      rewrite TrimPrefix_app. cbn [fst]. rewrite TrimPrefix_app.
      rewrite hasByte_app in Hslash. apply orb_false_iff in Hslash as [_ Hq].
      rewrite !ReplaceAll_byte, (slashes_there_and_back _ Hq).
      intros ->.
      assert (Hq1 : strings.HasPrefix q "\" = false).
      { unfold strings.HasPrefix in *.
        change "\\\" with ("\\" +:+ "\") in Hthree.
        by rewrite prefix_app_both in Hthree. }
      by rewrite Hq1.
    + cbn [fst].
      change ("file:///" +:+ strings.ReplaceAll p "\" "/")
        with ("file://" +:+ ("/" +:+ strings.ReplaceAll p "\" "/")).
      rewrite TrimPrefix_app, !ReplaceAll_byte.
      change (mapBytes (fun c => if Ascii.eqb c "/" then "\"%char else c)
                ("/" +:+ mapBytes (fun c => if Ascii.eqb c "\" then "/"%char else c) p))
        with ("\" +:+ mapBytes (fun c => if Ascii.eqb c "/" then "\"%char else c)
                (mapBytes (fun c => if Ascii.eqb c "\" then "/"%char else c) p)).
      rewrite (slashes_there_and_back _ Hslash).
      intros ->.
      unfold strings.HasPrefix. rewrite prefix_app.
      by rewrite TrimPrefix_app.
  - cbn [fst]. rewrite TrimPrefix_app. by intros ->.
Qed.

End FileURIProperties.

(** * The statements at sample inputs, continued *)

Lemma registry_auth_only_on_request_witness :
  Exists addsRegistryAuth
    [OpWithArgs (Logger := unit) (ContainerOperation := unit) ["-daemon"];
     OpWithRegistryAccess "{}"]
  /\ Exists (fun e => envKey e = "CNB_REGISTRY_AUTH")
       (Env (NewPhaseConfigProvider "export" linuxExec
               (map run [OpWithArgs (ContainerOperation := unit) ["-daemon"];
                         OpWithRegistryAccess "{}"]))).
Proof.
  assert (H : Exists addsRegistryAuth
                [OpWithArgs (Logger := unit) (ContainerOperation := unit) ["-daemon"];
                 OpWithRegistryAccess "{}"])
    by (right; left; exact I).
  split; [exact H |].
  exact (proj2 (registry_auth_only_on_request "export" linuxExec _) H).
Defined.



Lemma WindowsToSlash_spec_witness :
  (String.length "C" < 2 /\ paths.WindowsToSlash "C" = None)
  /\ (2 <= String.length "C:\cnb\buildpacks"
      /\ paths.WindowsToSlash "C:\cnb\buildpacks" = Some "/cnb/buildpacks").
Proof.
  split.
  - assert (H : String.length "C" < 2) by (simpl; lia).
    split; [exact H |].
    exact (proj1 (WindowsToSlash_spec "C") H).
  - assert (H : 2 <= String.length "C:\cnb\buildpacks") by (simpl; lia).
    split; [exact H |].
    exact (proj1 (proj2 (WindowsToSlash_spec "C:\cnb\buildpacks")) H).
Defined.

Lemma FilterReservedNames_inserts_underscores_witness :
  rev paths.reservedNameConversions ≡ₚ paths.reservedNameConversions
  /\ withoutByte "_" (paths.FilterReservedNames (rev paths.reservedNameConversions)
                        "example_com/console")
     = withoutByte "_" "example_com/console".
Proof.
  assert (H : rev paths.reservedNameConversions ≡ₚ paths.reservedNameConversions)
    by (symmetry; apply Permutation_rev).
  split; [exact H |].
  exact (proj1 (FilterReservedNames_inserts_underscores "example_com/console" H)).
Defined.

Lemma URIToFilePath_FilePathToURI_witness :
  (unixIsAbs "/home/user/app" = true
   /\ paths.URIToFilePath "linux" plainUnescape
        (fst (paths.FilePathToURI "linux" unixIsAbs unixAbs "/home/user/app"))
      = ("/home/user/app", None))
  /\ (windowsIsAbs "C:\Users\user\app" = true
      /\ hasByte "/" "C:\Users\user\app" = false
      /\ strings.HasPrefix "C:\Users\user\app" "\\\" = false
      /\ paths.URIToFilePath "windows" plainUnescape
           (fst (paths.FilePathToURI "windows" windowsIsAbs windowsAbs
                   "C:\Users\user\app"))
         = ("C:\Users\user\app", None)).
Proof.
  split.
  - split; [reflexivity |].
    apply (@URIToFilePath_FilePathToURI "linux" unit unixIsAbs unixAbs plainUnescape
             "/home/user/app" eq_refl).
    + intros H. discriminate H.
    + reflexivity.
  - split; [reflexivity |]. split; [reflexivity |]. split; [reflexivity |].
    apply (@URIToFilePath_FilePathToURI "windows" unit windowsIsAbs windowsAbs
             plainUnescape "C:\Users\user\app" eq_refl).
    + intros _. split; reflexivity.
    + reflexivity.
Defined.

(** * Reserved names: the order of the table does not matter *)

Section ReservedNameOrder.

Lemma prefix_name (t : name3) (s : string) :
  String.prefix (nameOf t) s = true
  <-> exists rest, s = nameOf t +:+ rest.
Proof.
  split; [apply prefix_split | intros [rest ->]; apply prefix_app].
Qed.

Lemma prefix_cons_inv (a x : ascii) (k y : string) :
  String.prefix (String a k) (String x y) = true -> a = x /\ String.prefix k y = true.
Proof.
  intros H. apply prefix_split in H as [rest H].
  change (String x y = String a (k +:+ rest)) in H.
  injection H as -> ->. split; [reflexivity | apply prefix_app].
Qed.

Lemma startsAny_cons (k : name3) (names : list name3) (s : string) :
  startsAny (k :: names) s = String.prefix (nameOf k) s || startsAny names s.
Proof. reflexivity. Qed.

Lemma underscored_cons (names : list name3) (prev : bool) (c : ascii) (rest : string) :
  underscored names prev (String c rest)
  = String c (gap (startsAny names (String c rest) || prev)
                (underscored names (startsAny names (String c rest)) rest)).
Proof. reflexivity. Qed.

Lemma underscored_nil (s : string) : underscored [] false s = s.
Proof. induction s as [| c s IH]; [reflexivity |]. rewrite underscored_cons. simpl. by rewrite IH. Qed.

Lemma underscored_ext (names names' : list name3) :
  (forall s, startsAny names s = startsAny names' s) ->
  forall (s : string) (prev : bool), underscored names prev s = underscored names' prev s.
Proof.
  intros Hext. induction s as [| c s IH]; intros prev; [reflexivity |].
  by rewrite !underscored_cons, Hext, IH.
Qed.

Lemma wellFormed_bytes (k : name3) :
  wellFormed k = true ->
  exists a b c, k = (a, b, c) /\ c <> a /\ a <> "_"%char /\ b <> "_"%char /\ c <> "_"%char.
Proof.
  intros Hwf. destruct k as [[a b] c]. exists a, b, c. simpl in Hwf.
  repeat (apply andb_true_iff in Hwf as [Hwf ?]).
  repeat split; apply Ascii.eqb_neq; by apply negb_true_iff.
Qed.

(** An occurrence of a name in the underscored string is one in the
    string, with no underscore put after its first byte. *)
Lemma prefix_in_underscored (k : name3) (names : list name3) (prev : bool) (s : string) :
  wellFormed k = true ->
  String.prefix (nameOf k) (underscored names prev s) = true ->
  String.prefix (nameOf k) s = true /\ startsAny names s || prev = false.
Proof.
  intros Hwf.
  destruct (wellFormed_bytes k Hwf) as (a & b & c & -> & _ & Ha & Hb & Hc). cbn [nameOf].
  destruct s as [| x1 s]; [intros H; discriminate H |].
  rewrite underscored_cons. intros H.
  apply prefix_cons_inv in H as [-> H].
  destruct (startsAny names (String x1 s) || prev); cbn [gap] in H.
  { apply prefix_cons_inv in H as [-> _]. contradiction. }
  split; [| reflexivity].
  destruct s as [| x2 s]; [discriminate H |].
  rewrite underscored_cons in H.
  apply prefix_cons_inv in H as [-> H].
  destruct (startsAny names (String x2 s) || startsAny names (String x1 (String x2 s)));
    cbn [gap] in H.
  { apply prefix_cons_inv in H as [-> _]. contradiction. }
  destruct s as [| x3 s]; [discriminate H |].
  rewrite underscored_cons in H.
  apply prefix_cons_inv in H as [-> _].
  exact (prefix_app (String x1 (String x2 (String x3 ""))) s).
Qed.

Section OneName.

Variable k : name3.
Variable names : list name3.

Hypothesis k_wellFormed : wellFormed k = true.
Hypothesis k_fresh : ~ In k names.
Hypothesis k_after : forall t, In t names -> clashes t k = false.
Hypothesis after_k : forall t, In t (k :: names) -> clashes k t = false.

Let R := strings.replaceFrom (nameOf k) (conversionOf k).

(** A name of [names] and [k] do not start at the same byte. *)
Lemma not_both_here (s : string) :
  startsAny names s = true -> String.prefix (nameOf k) s = false.
Proof.
  intros Hs. apply not_true_is_false. intros Hk.
  apply existsb_exists in Hs as (t & Ht & Hp).
  apply prefix_name in Hk as [r1 ->]. apply prefix_name in Hp as [r2 Heq].
  destruct k as [[a b] c], t as [[a' b'] c']. simpl in Heq.
  injection Heq as -> -> -> _. contradiction.
Qed.

(** [k] does not start one byte after a name of [names]. *)
Lemma not_one_after (c : ascii) (s : string) :
  startsAny names (String c s) = true -> String.prefix (nameOf k) s = false.
Proof.
  intros Hs. apply not_true_is_false. intros Hk.
  apply existsb_exists in Hs as (t & Ht & Hp).
  apply prefix_name in Hk as [r1 ->]. apply prefix_name in Hp as [r2 Heq].
  pose proof (@k_after t Ht) as Hclash.
  destruct k as [[a b] c0], t as [[a' b'] c']. simpl in Heq.
  injection Heq as -> -> -> _. simpl in Hclash.
  by rewrite !Ascii.eqb_refl in Hclash.
Qed.

(** No name of [k :: names] starts one byte after [k]. *)
Lemma none_one_after_k (c : ascii) (s : string) :
  String.prefix (nameOf k) (String c s) = true -> startsAny (k :: names) s = false.
Proof.
  intros Hk. apply not_true_is_false. intros Hs.
  apply existsb_exists in Hs as (t & Ht & Hp).
  apply prefix_name in Hk as [r1 Heq1]. apply prefix_name in Hp as [r2 ->].
  pose proof (@after_k t Ht) as Hclash.
  destruct k as [[a b] c0], t as [[a' b'] c']. simpl in Heq1.
  injection Heq1 as -> -> -> _. simpl in Hclash.
  by rewrite !Ascii.eqb_refl in Hclash.
Qed.

Lemma k_bytes :
  exists a b c, k = (a, b, c) /\ c <> a /\ a <> "_"%char /\ b <> "_"%char /\ c <> "_"%char.
Proof. by apply wellFormed_bytes. Qed.

Lemma prefix_underscored (prev : bool) (s : string) :
  String.prefix (nameOf k) (underscored names prev s) = true ->
  String.prefix (nameOf k) s = true.
Proof. intros H. by apply (prefix_in_underscored k names prev s k_wellFormed H). Qed.

(** An underscore is copied. *)
Lemma R_gap (b : bool) (s : string) : R 0 (gap b s) = gap b (R 0 s).
Proof.
  destruct b; [| reflexivity]. unfold gap, R.
  destruct k_bytes as (a & b & c & -> & _ & Ha & _).
  cbn [strings.replaceFrom nameOf].
  destruct (String.prefix (String a (String b (String c ""))) (String "_" s)) eqn:Hp;
    [| reflexivity].
  apply prefix_cons_inv in Hp as [-> _]. contradiction.
Qed.

(** Replacing [k] in the string underscored for [names] gives the string
    underscored for [k :: names]. *)
Lemma replace_underscored (n : nat) :
  forall (s : string) (prev : bool),
    String.length s <= n ->
    (prev = true -> String.prefix (nameOf k) s = false) ->
    R 0 (underscored names prev s) = underscored (k :: names) prev s.
Proof.
  induction n as [| n IH]; intros s prev Hlen Hprev.
  { destruct s; [reflexivity | simpl in Hlen; lia]. }
  destruct s as [| x1 s]; [reflexivity |].
  simpl in Hlen.
  destruct (String.prefix (nameOf k) (String x1 s)) eqn:Hk.
  - (* [k] starts here *)
    assert (Hprev' : prev = false) by (destruct prev; [by specialize (Hprev eq_refl) | reflexivity]).
    subst prev.
    assert (Hhere : startsAny names (String x1 s) = false).
    { apply not_true_is_false. intros Hs. apply not_both_here in Hs. congruence. }
    pose proof (none_one_after_k _ _ Hk) as Hnext.
    rewrite startsAny_cons in Hnext. apply orb_false_iff in Hnext as [Hk1 Hs1].
    pose proof Hk as Hk'. apply prefix_name in Hk' as [rest Heq].
    destruct k_bytes as (a & b & c & Hkeq & Hca & _).
    rewrite Hkeq in Heq. cbn [nameOf] in Heq.
    change (String x1 s = String a (String b (String c rest))) in Heq.
    injection Heq as -> ->.
    assert (Hk2 : String.prefix (nameOf k) (String c rest) = false).
    { apply not_true_is_false. intros H. rewrite Hkeq in H. cbn [nameOf] in H.
      apply prefix_cons_inv in H as [-> _]. contradiction. }
    (* the left-hand side *)
    rewrite (underscored_cons names false a), Hhere. cbn [orb gap].
    rewrite (underscored_cons names false b), Hs1. cbn [orb gap].
    rewrite (underscored_cons names false c), orb_false_r.
    (* the right-hand side *)
    rewrite (underscored_cons (k :: names) false a), startsAny_cons, Hk, Hhere.
    cbn [orb gap].
    rewrite (underscored_cons (k :: names) true b), startsAny_cons, Hk1, Hs1.
    cbn [orb gap].
    rewrite (underscored_cons (k :: names) false c), startsAny_cons, Hk2, orb_false_r.
    cbn [orb].
    (* one replacement, then the rest *)
    unfold R at 1. cbn [strings.replaceFrom].
    replace (String.prefix (nameOf k)
               (String a (String b (String c
                  (gap (startsAny names (String c rest))
                     (underscored names (startsAny names (String c rest)) rest))))))
      with true
      by (symmetry; rewrite Hkeq; exact (prefix_app (String a (String b (String c ""))) _)).
    rewrite Hkeq at 1 2. cbn [nameOf conversionOf String.length Nat.sub].
    change (String a (String "_" (String b (String "_" (String c ""))))
            +:+ ?x) with (String a (String "_" (String b (String "_" (String c x))))).
    cbn [strings.replaceFrom].
    fold R. rewrite R_gap, IH; [reflexivity | simpl in Hlen; lia |].
    intros Hs2. eapply not_one_after. exact Hs2.
  - (* [k] does not start here *)
    assert (HkU : String.prefix (nameOf k) (underscored names prev (String x1 s)) = false).
    { apply not_true_is_false. intros H. apply prefix_underscored in H. congruence. }
    rewrite (underscored_cons (k :: names)), startsAny_cons, Hk. cbn [orb].
    unfold R at 1.
    rewrite underscored_cons in HkU |- *. cbn [strings.replaceFrom]. rewrite HkU.
    fold R. rewrite R_gap, IH; [reflexivity | lia |].
    intros Hs1. eapply not_one_after. exact Hs1.
Qed.

Lemma ReplaceAll_underscored (s : string) :
  strings.ReplaceAll (underscored names false s) (nameOf k) (conversionOf k)
  = underscored (k :: names) false s.
Proof.
  apply (replace_underscored (n := String.length s)); [lia | discriminate].
Qed.

End OneName.

Lemma existsb_Permutation {A : Type} (f : A -> bool) (l l' : list A) :
  l ≡ₚ l' -> existsb f l = existsb f l'.
Proof.
  induction 1 as [| x l l' _ IH | x y l | l l' l'' _ IH1 _ IH2]; simpl.
  - reflexivity.
  - by rewrite IH.
  - by destruct (f x), (f y).
  - by rewrite IH1.
Qed.

Lemma reservedNames_separated :
  List.NoDup reservedNames
  /\ (forall t, In t reservedNames -> wellFormed t = true)
  /\ (forall t u, In t reservedNames -> In u reservedNames -> clashes t u = false).
Proof.
  split; [| split].
  - repeat (constructor;
              [intros H; simpl in H;
               repeat (destruct H as [H | H]; [discriminate H |]); exact H |]).
    constructor.
  - intros t Ht.
    assert (H : forallb wellFormed reservedNames = true) by reflexivity.
    by apply (proj1 (forallb_forall _ _) H).
  - intros t u Ht Hu.
    assert (H : forallb (fun t => forallb (fun u => negb (clashes t u)) reservedNames)
                  reservedNames = true) by reflexivity.
    pose proof (proj1 (forallb_forall _ _) H t Ht) as H'.
    pose proof (proj1 (forallb_forall _ _) H' u Hu) as H''.
    by apply negb_true_iff in H''.
Qed.

Lemma fold_underscored (todo : list name3) :
  forall (done : list name3) (p : string),
    List.NoDup (todo ++ done) ->
    (forall t, In t (todo ++ done) -> wellFormed t = true) ->
    (forall t u, In t (todo ++ done) -> In u (todo ++ done) -> clashes t u = false) ->
    paths.FilterReservedNames (map entryOf todo) (underscored done false p)
    = underscored (rev todo ++ done) false p.
Proof.
  induction todo as [| k todo IH]; intros done p Hnd Hwf Hclash; [reflexivity |].
  assert (Hk : In k ((k :: todo) ++ done)) by (left; reflexivity).
  assert (Hdone : forall t, In t done -> In t ((k :: todo) ++ done))
    by (intros t Ht; apply in_or_app; by right).
  assert (Hmid : forall t, In t (todo ++ k :: done) -> In t ((k :: todo) ++ done)).
  { intros t Ht. apply in_app_or in Ht as [Ht | [-> | Ht]].
    - right. apply in_or_app. by left.
    - by left.
    - right. apply in_or_app. by right. }
  change (paths.FilterReservedNames (map entryOf (k :: todo)) (underscored done false p))
    with (paths.FilterReservedNames (map entryOf todo)
            (strings.ReplaceAll (underscored done false p) (nameOf k) (conversionOf k))).
  rewrite ReplaceAll_underscored.
  - rewrite IH.
    + simpl rev. by rewrite <- app_assoc.
    + eapply Permutation_NoDup; [apply Permutation_middle | exact Hnd].
    + intros t Ht. apply Hwf. by apply Hmid.
    + intros t u Ht Hu. apply Hclash; by apply Hmid.
  - by apply Hwf.
  - inversion Hnd as [| ? ? Hnotin _]; subst. intros Hin. apply Hnotin.
    apply in_or_app. by right.
  - intros t Ht. apply Hclash; [by apply Hdone | exact Hk].
  - intros t [<- | Ht]; apply Hclash; try exact Hk. by apply Hdone.
Qed.

Lemma FilterReservedNames_underscored (order : list (string * string)) (p : string) :
  order ≡ₚ paths.reservedNameConversions ->
  paths.FilterReservedNames order p = underscored reservedNames false p.
Proof.
  intros Hperm.
  change paths.reservedNameConversions with (map entryOf reservedNames) in Hperm.
  apply Permutation_map_inv in Hperm as (ks & -> & Hks).
  destruct reservedNames_separated as (Hnd & Hwf & Hclash).
  assert (Hin : forall t, In t (ks ++ []) -> In t reservedNames).
  { intros t Ht. rewrite app_nil_r in Ht. eapply Permutation_in; [| exact Ht].
    by symmetry. }
  rewrite <- (underscored_nil p) at 1.
  rewrite fold_underscored.
  - apply underscored_ext. intros s. unfold startsAny. apply existsb_Permutation.
    rewrite app_nil_r. etransitivity; [symmetry; apply Permutation_rev |].
    by symmetry.
  - rewrite app_nil_r. eapply Permutation_NoDup; [exact Hks | exact Hnd].
  - intros t Ht. apply Hwf. by apply Hin.
  - intros t u Ht Hu. apply Hclash; by apply Hin.
Qed.

(** X23: the order in which the map of reserved names is iterated does not
    change what [FilterReservedNames] returns: for every arrangement of
    the table the result is the path with an underscore after the first
    and after the second byte of every occurrence of a reserved name. *)
Theorem FilterReservedNames_order_irrelevant
  (order1 order2 : list (string * string)) (p : string) :
  order1 ≡ₚ paths.reservedNameConversions ->
  order2 ≡ₚ paths.reservedNameConversions ->
  paths.FilterReservedNames order1 p = paths.FilterReservedNames order2 p
  /\ paths.FilterReservedNames order1 p = underscored reservedNames false p.
Proof.
  intros H1 H2. split; [| by apply FilterReservedNames_underscored].
  by rewrite !FilterReservedNames_underscored.
Qed.

Lemma Contains_underscored (k : name3) (names : list name3) :
  In k names -> wellFormed k = true ->
  forall (s : string) (prev : bool),
    strings.Contains (underscored names prev s) (nameOf k) = false.
Proof.
  intros Hin Hwf.
  assert (Hat : forall s prev,
             String.prefix (nameOf k) (underscored names prev s) = false).
  { intros s prev. apply not_true_is_false. intros H.
    apply prefix_in_underscored in H as [Hk Hno]; [| exact Hwf].
    apply orb_false_iff in Hno as [Hno _].
    assert (Hyes : startsAny names s = true)
      by (apply existsb_exists; by exists k).
    congruence. }
  assert (Hus : forall y, String.prefix (nameOf k) (String "_" y) = false).
  { intros y. apply not_true_is_false. intros H.
    destruct (wellFormed_bytes k Hwf) as (a & b & c & -> & _ & Ha & _).
    cbn [nameOf] in H. apply prefix_cons_inv in H as [-> _]. contradiction. }
  induction s as [| x s IH]; intros prev.
  - destruct (wellFormed_bytes k Hwf) as (a & b & c & -> & _). reflexivity.
  - pose proof (Hat (String x s) prev) as Hhere.
    rewrite underscored_cons in Hhere |- *.
    cbn [strings.Contains]. rewrite Hhere. cbn [orb].
    destruct (startsAny names (String x s) || prev); cbn [gap]; [| apply IH].
    cbn [strings.Contains]. rewrite Hus. apply IH.
Qed.

Lemma FilterReservedNames_absent (order : list (string * string)) (p : string) :
  Forall (fun kv => strings.Contains p (fst kv) = false) order ->
  paths.FilterReservedNames order p = p.
Proof.
  unfold paths.FilterReservedNames.
  induction 1 as [| kv order Hk _ IH]; [reflexivity |].
  simpl. by rewrite ReplaceAll_absent.
Qed.

(** X24: no reserved name occurs in what [FilterReservedNames] returns, so
    filtering a filtered path again, in any order of the table, changes
    nothing. *)
Theorem FilterReservedNames_idempotent
  (order1 order2 : list (string * string)) (p : string) :
  order1 ≡ₚ paths.reservedNameConversions ->
  order2 ≡ₚ paths.reservedNameConversions ->
  Forall (fun kv => strings.Contains (paths.FilterReservedNames order1 p) (fst kv) = false)
    paths.reservedNameConversions
  /\ paths.FilterReservedNames order2 (paths.FilterReservedNames order1 p)
     = paths.FilterReservedNames order1 p.
Proof.
  intros H1 H2.
  assert (Hnone : Forall (fun kv => strings.Contains
                                      (paths.FilterReservedNames order1 p) (fst kv) = false)
                    paths.reservedNameConversions).
  { rewrite (FilterReservedNames_underscored p H1).
    destruct reservedNames_separated as (_ & Hwf & _).
    change paths.reservedNameConversions with (map entryOf reservedNames).
    apply Forall_map, Forall_forall. intros k Hk. simpl.
    apply list_elem_of_In in Hk.
    apply Contains_underscored; [exact Hk | by apply Hwf]. }
  split; [exact Hnone |].
  apply FilterReservedNames_absent.
  eapply Permutation_Forall; [symmetry; exact H2 | exact Hnone].
Qed.

End ReservedNameOrder.

Lemma FilterReservedNames_order_irrelevant_witness :
  rev paths.reservedNameConversions ≡ₚ paths.reservedNameConversions
  /\ paths.reservedNameConversions ≡ₚ paths.reservedNameConversions
  /\ paths.FilterReservedNames (rev paths.reservedNameConversions) "conul/prnaux.com"
     = paths.FilterReservedNames paths.reservedNameConversions "conul/prnaux.com".
Proof.
  assert (H1 : rev paths.reservedNameConversions ≡ₚ paths.reservedNameConversions)
    by (symmetry; apply Permutation_rev).
  assert (H2 : paths.reservedNameConversions ≡ₚ paths.reservedNameConversions)
    by reflexivity.
  split; [exact H1 |]. split; [exact H2 |].
  exact (proj1 (FilterReservedNames_order_irrelevant "conul/prnaux.com" H1 H2)).
Defined.

Lemma FilterReservedNames_idempotent_witness :
  paths.reservedNameConversions ≡ₚ paths.reservedNameConversions
  /\ rev paths.reservedNameConversions ≡ₚ paths.reservedNameConversions
  /\ paths.FilterReservedNames (rev paths.reservedNameConversions)
       (paths.FilterReservedNames paths.reservedNameConversions "conul/prnaux.com")
     = paths.FilterReservedNames paths.reservedNameConversions "conul/prnaux.com".
Proof.
  assert (H1 : paths.reservedNameConversions ≡ₚ paths.reservedNameConversions)
    by reflexivity.
  assert (H2 : rev paths.reservedNameConversions ≡ₚ paths.reservedNameConversions)
    by (symmetry; apply Permutation_rev).
  split; [exact H1 |]. split; [exact H2 |].
  exact (proj2 (FilterReservedNames_idempotent "conul/prnaux.com" H1 H2)).
Defined.
